(** * aTrustLogin: a shallow embedding of [src/main.py]

    The program drives a browser through Selenium to keep a portal session
    alive.  Everything the program itself decides (login-state detection,
    the login sequence, persistence of cookies and local storage, the
    keepalive loop and its error handler) is embedded below as executable
    definitions in a state-and-exception monad.  The browser, the clock,
    the disk and the third-party libraries ([urlparse], [pickle],
    [json.dumps]) are the environment: the browser, the clock and the disk
    are an interface ([World]), the library functions are section
    variables.  Where a property needs the byte format of the artifact file
    itself, [pickle] is instantiated by a concrete format ([Toy.toy_dumps],
    [Toy.toy_loads]). *)

From stdpp Require Import base option list strings gmap.
From Stdlib Require Import ZArith QArith Ascii String DecimalString DecimalZ DecimalPos.

Local Close Scope Q_scope.
Local Open Scope string_scope.
Local Open Scope list_scope.

Set Warnings "-register-all".

(** ** Python values *)

(** The values that cross the WebDriver wire and end up in
    [Dict[str, Any]]: JSON-like data.  A dict is an association list in
    insertion order. *)
Inductive pyval : Type :=
| PyNone
| PyBool (b : bool)
| PyInt (z : Z)
| PyStr (s : string)
| PyList (l : list pyval)
| PyDict (d : list (string * pyval)).

Definition pydict : Type := list (string * pyval).

(** [d[key]] *)
Fixpoint dict_get (key : string) (d : pydict) : option pyval :=
  match d with
  | [] => None
  | (k, v) :: d' => if String.eqb k key then Some v else dict_get key d'
  end.

(** [class ATrustLoginStorage(BaseModel)] *)
Record ATrustLoginStorage : Type := mkStorage {
  cookies : list pydict;
  local_storage : pydict
}.

(** ** Exceptions *)

(** [SystemExit] and [KeyboardInterrupt] derive from [BaseException] only;
    all the others derive from [Exception]. *)
Inductive exn : Type :=
| SystemExit (code : Z)
| KeyboardInterrupt
| FileNotFoundError
| KeyError (key : string)
| ValueError (msg : string)
| ValidationError
| UnpicklingError
| TimeoutException
| NoSuchElementException
| WebDriverException (msg : string).

(** [isinstance(e, Exception)] *)
Definition is_Exception (e : exn) : bool :=
  match e with
  | SystemExit _ | KeyboardInterrupt => false
  | _ => true
  end.

Definition is_FileNotFoundError (e : exn) : bool :=
  match e with
  | FileNotFoundError => true
  | _ => false
  end.

Inductive outcome (A : Type) : Type :=
| Ok (a : A)
| Raised (e : exn).
Arguments Ok {A} a.
Arguments Raised {A} e.

(** ** Strings *)

(** [s.startswith(p)] *)
Fixpoint startswith (p s : string) : bool :=
  match p, s with
  | EmptyString, _ => true
  | String a p', String b s' => if Ascii.eqb a b then startswith p' s' else false
  | String _ _, EmptyString => false
  end.

(** [k in s] for strings: [k] occurs in [s] at some position.  A Python
    [str] is represented by its UTF-8 bytes; UTF-8 is self-synchronising,
    so occurrence of code-point sequences and of their encodings agree. *)
Fixpoint str_in (k s : string) : bool :=
  startswith k s ||
  match s with
  | EmptyString => false
  | String _ s' => str_in k s'
  end.

(** [any(keyword in text for keyword in keywords)] *)
Definition any_keyword_in (keywords : list string) (text : string) : bool :=
  existsb (fun keyword => str_in keyword text) keywords.

(** [os.path.join(a, b)] (POSIX) for a relative [b]. *)
Definition ends_with_slash (a : string) : bool :=
  match String.get (String.length a - 1) a with
  | Some c => Ascii.eqb c "/"%char
  | None => false
  end.

Definition path_join (a b : string) : string :=
  match a with
  | EmptyString => b
  | _ => if ends_with_slash a then a ++ b else a ++ "/" ++ b
  end.

Definition workspace_marker : string := "工作台".
Definition local_password_marker : string := "本地密码".

(** ** The environment: browser, clock, trace *)

Inductive level : Type := DEBUG | INFO | ERROR.

Inductive By : Type := By_ID | By_XPATH.

(** WebDriver element references are opaque identifiers. *)
Definition element : Type := string.

(** The WebDriver commands the program issues. *)
Inductive command : Type :=
| Get (url : string)
| WaitReady
| WaitClickable (how : By) (value : string)
| FindElement (how : By) (value : string)
| ExecuteScript (script : string) (args : list element)
| IsDisplayed (el : element)
| Click (el : element)
| Clear (el : element)
| SendKeys (el : element) (text : string)
| DeleteCookie (name : pyval)
| AddCookie (cookie : pydict)
| GetCookies
| Quit.

(** What an observer of the process sees, in order: log records, WebDriver
    commands issued (whether or not they succeed) and sleeps started.  The
    read-only queries [current_url] and [page_source] are not recorded.

    [LogException e shown] is the record [logger.exception(e)] makes: an
    ERROR record with [e] and its traceback.  The logger is never
    configured, so the records go to loguru's default sink, which prints
    the traceback with the values of the variables named on its source
    lines; [shown] are the named values the record can show this way (the
    line where the exception arose is not tracked, so [shown] is what the
    frames of the handler's function hold and can be displayed, not what
    every such record displays). *)
Inductive event : Type :=
| Log (lvl : level) (msg : string)
| LogException (e : exn) (shown : list (string * string))
| Cmd (c : command)
| Sleep (secs : Q).

(** How an [open(path, 'wb')] followed by a write of the content ends:
    the content is written in full; or the [open] raises, and the file is
    as it was; or the write raises after the [open] has truncated the file,
    which then holds the first [written] bytes of the content. *)
Inductive write_outcome : Type :=
| Written
| OpenFailed (e : exn)
| WriteFailed (written : nat) (e : exn).

(** The browser session together with the passing of time.  Every command
    may change the browser and may raise; a command that raises may still
    have changed the browser.  [current_url] and [page_source] observe the
    browser without changing it.  [env_sleep] lets [secs] seconds pass: the
    browser may change meanwhile (redirects, session expiry), and [None]
    is an interruption by a signal ([KeyboardInterrupt]).  [env_write] is
    what the disk makes of a write. *)
Class World (W : Type) : Type := {
  drv_get : string -> W -> outcome unit * W;
  drv_current_url : W -> outcome string;
  drv_page_source : W -> outcome string;
  drv_wait_ready : W -> outcome unit * W;
  drv_wait_clickable : By -> string -> W -> outcome unit * W;
  drv_find_element : By -> string -> W -> outcome element * W;
  drv_execute_script : string -> list element -> W -> outcome pyval * W;
  drv_delete_cookie : pyval -> W -> outcome unit * W;
  drv_add_cookie : pydict -> W -> outcome unit * W;
  drv_get_cookies : W -> outcome (list pydict) * W;
  drv_quit : W -> outcome unit * W;
  el_is_displayed : element -> W -> outcome bool * W;
  el_click : element -> W -> outcome unit * W;
  el_clear : element -> W -> outcome unit * W;
  el_send_keys : element -> string -> W -> outcome unit * W;
  env_sleep : Q -> W -> option W;
  env_write : string -> list Byte.byte -> W -> write_outcome
}.

(** Process state: the mutable attribute [self.initialized], the browser,
    the files of the data directory (path to content) and the trace. *)
Record state (W : Type) : Type := mkState {
  initialized : bool;
  browser : W;
  fs : gmap string (list Byte.byte);
  trace : list event
}.
Arguments mkState {W} _ _ _ _.
Arguments initialized {W} _.
Arguments browser {W} _.
Arguments fs {W} _.
Arguments trace {W} _.

Definition set_initialized {W} (b : bool) (s : state W) : state W :=
  mkState b (browser s) (fs s) (trace s).
Definition set_browser {W} (w : W) (s : state W) : state W :=
  mkState (initialized s) w (fs s) (trace s).
Definition set_fs {W} (f : gmap string (list Byte.byte)) (s : state W) : state W :=
  mkState (initialized s) (browser s) f (trace s).
Definition emit {W} (e : event) (s : state W) : state W :=
  mkState (initialized s) (browser s) (fs s) (trace s ++ [e]).

(** ** The state-and-exception monad *)

Definition M (W A : Type) : Type := state W -> outcome A * state W.

Definition ret {W A} (a : A) : M W A := fun s => (Ok a, s).

Definition raise {W A} (e : exn) : M W A := fun s => (Raised e, s).

Definition bind {W A B} (m : M W A) (f : A -> M W B) : M W B :=
  fun s =>
    match m s with
    | (Ok a, s') => f a s'
    | (Raised e, s') => (Raised e, s')
    end.

Notation "x <- m ;; k" := (bind m (fun x => k))
  (at level 100, m at next level, right associativity).
Notation "m ;; k" := (bind m (fun _ => k))
  (at level 100, right associativity).

(** [try: body  except <classes matched by catches> as e: handler e] *)
Definition try_except {W A} (body : M W A) (catches : exn -> bool)
    (handler : exn -> M W A) : M W A :=
  fun s =>
    match body s with
    | (Ok a, s') => (Ok a, s')
    | (Raised e, s') => if catches e then handler e s' else (Raised e, s')
    end.

(** [for x in xs: body x] *)
Fixpoint for_each {W A} (xs : list A) (body : A -> M W unit) : M W unit :=
  match xs with
  | [] => ret tt
  | x :: xs' => body x ;; for_each xs' body
  end.

Section Primitives.
Context {W : Type} `{World W}.

(** Issue a WebDriver command: record it, then let the browser react. *)
Definition driver {A} (c : command) (op : W -> outcome A * W) : M W A :=
  fun s =>
    let '(r, w') := op (browser s) in
    (r, set_browser w' (emit (Cmd c) s)).

(** A read-only query of the browser. *)
Definition query {A} (q : W -> outcome A) : M W A :=
  fun s => (q (browser s), s).

Definition logger (lvl : level) (msg : string) : M W unit :=
  fun s => (Ok tt, emit (Log lvl msg) s).

(** [logger.exception(e)] in a function whose frames hold [shown]. *)
Definition logger_exception (e : exn) (shown : list (string * string)) : M W unit :=
  fun s => (Ok tt, emit (LogException e shown) s).

(** [time.sleep(secs)]: a negative length is a [ValueError] before any
    time passes. *)
Definition time_sleep (secs : Q) : M W unit :=
  fun s =>
    if Qle_bool 0 secs then
      match env_sleep secs (browser s) with
      | Some w' => (Ok tt, set_browser w' (emit (Sleep secs) s))
      | None => (Raised KeyboardInterrupt, emit (Sleep secs) s)
      end
    else (Raised (ValueError "sleep length must be non-negative"), s).

(** [os.path.exists(path)] *)
Definition path_exists (path : string) : M W bool :=
  fun s => (Ok (bool_decide (is_Some (fs s !! path))), s).

(** [open(path, 'rb')] followed by reading the whole file. *)
Definition read_file (path : string) : M W (list Byte.byte) :=
  fun s =>
    match fs s !! path with
    | Some content => (Ok content, s)
    | None => (Raised FileNotFoundError, s)
    end.

(** [with open(path, 'wb') as f: <write content to f>]: the [open]
    truncates the file before anything is written, and either step may
    raise. *)
Definition write_file (path : string) (content : list Byte.byte) : M W unit :=
  fun s =>
    match env_write path content (browser s) with
    | Written => (Ok tt, set_fs (<[path := content]> (fs s)) s)
    | OpenFailed e => (Raised e, s)
    | WriteFailed written e =>
        (Raised e, set_fs (<[path := take written content]> (fs s)) s)
    end.

(** [self.initialized = b] *)
Definition assign_initialized (b : bool) : M W unit :=
  fun s => (Ok tt, set_initialized b s).

Definition read_initialized : M W bool :=
  fun s => (Ok (initialized s), s).
End Primitives.

(** ** [class ATrustLogin] *)

(** The attributes of [self] that never change after [__init__]. *)
Record ATrustLogin : Type := mkATrustLogin {
  data_dir : string;
  interactive : bool;
  portal_address : string;
  input_delay : Q;
  loading_delay : Q;
  must_be_logged_keywords : list string;
  must_not_logged_keywords : list string
}.

(** [ATrustLogin.__init__]: the keyword lists are fixed there. *)
Definition ATrustLogin_init (portal data : string) (inter : bool)
    (input_d loading_d : Q) : ATrustLogin :=
  {| data_dir := data;
     interactive := inter;
     portal_address := portal;
     input_delay := input_d;
     loading_delay := loading_d;
     must_be_logged_keywords :=
       ["app_center"; "user_info"; "app_apply"; "device_manage"];
     must_not_logged_keywords := ["login"; "captcha"] |}.

(** The freshly constructed object: [self.initialized = False], a new
    browser session, the files found on disk, nothing observed yet. *)
Definition fresh {W} (w : W) (files : gmap string (list Byte.byte)) : state W :=
  mkState false w files [].

Definition storage_path (self : ATrustLogin) : string :=
  path_join (data_dir self) "ATrustLoginStorage.pkl".

Definition method_switcher_xpath : string :=
  "//div[contains(@class, 'server-name') and contains(text(), '本地密码')]".

Definition scroll_script : string := "arguments[0].scrollIntoView();".

Definition read_local_storage_script : string := "return window.localStorage".

Definition set_item_script (key_js value_js : string) : string :=
  "window.localStorage.setItem(" ++ key_js ++ ", " ++ value_js ++ ");".

(** Python truthiness of the value returned by [is_logged] or [login]
    ([None], [True] or [False], as [option bool]). *)
Definition truthy (r : option bool) : bool :=
  match r with
  | Some true => true
  | _ => false
  end.

(** [r is True] *)
Definition is_True (r : option bool) : bool :=
  match r with
  | Some true => true
  | _ => false
  end.

Definition lift {W A} (r : outcome A) : M W A := fun s => (r, s).

Section Methods.
Context {W : Type} `{World W}.

(** The library functions the program calls. *)
Variable urlparse_fragment : string -> outcome string.
Variable json_dumps : pyval -> string.
Variable pickle_dumps : ATrustLoginStorage -> list Byte.byte.
Variable pickle_loads : list Byte.byte -> outcome ATrustLoginStorage.

Variable self : ATrustLogin.

Definition open_portal : M W unit :=
  driver (Get (portal_address self)) (drv_get (portal_address self)).

Definition wait_login_page : M W unit :=
  driver WaitReady drv_wait_ready.

Definition delay_input : M W unit := time_sleep (input_delay self).

Definition delay_loading : M W unit := time_sleep (loading_delay self).

Definition find_element (how : By) (value : string) : M W element :=
  driver (FindElement how value) (drv_find_element how value).

Definition wait_clickable (how : By) (value : string) : M W unit :=
  driver (WaitClickable how value) (drv_wait_clickable how value).

Definition execute_script (script : string) (args : list element) : M W pyval :=
  driver (ExecuteScript script args) (drv_execute_script script args).

Definition scroll_and_click (el : element) : M W element :=
  execute_script scroll_script [el] ;;
  driver (Click el) (el_click el) ;;
  ret el.

Definition enter_credentials (username password : string) : M W unit :=
  try_except
    (el <- find_element By_XPATH method_switcher_xpath ;;
     displayed <- driver (IsDisplayed el) (el_is_displayed el) ;;
     if displayed : bool
     then delay_input ;; scroll_and_click el ;; ret tt
     else ret tt)
    (fun _ => true)
    (fun _ => ret tt) ;;
  wait_clickable By_ID "userName" ;;
  username_input <- find_element By_ID "userName" ;;
  wait_clickable By_ID "password" ;;
  password_input <- find_element By_ID "password" ;;
  scroll_and_click username_input ;;
  delay_input ;;
  driver (Clear username_input) (el_clear username_input) ;;
  driver (SendKeys username_input username) (el_send_keys username_input username) ;;
  scroll_and_click password_input ;;
  delay_input ;;
  driver (Clear password_input) (el_clear password_input) ;;
  driver (SendKeys password_input password) (el_send_keys password_input password) ;;
  logger DEBUG "Filled username and password".

Definition click_login_button : M W unit :=
  el <- find_element By_ID "loginBtn" ;;
  scroll_and_click el ;;
  ret tt.

Definition replay_cookie (cookie : pydict) : M W unit :=
  name <- match dict_get "name" cookie with
          | Some v => ret v
          | None => raise (KeyError "name")
          end ;;
  driver (DeleteCookie name) (drv_delete_cookie name) ;;
  driver (AddCookie cookie) (drv_add_cookie cookie).

Definition replay_item (item : string * pyval) : M W unit :=
  let key_js := json_dumps (PyStr (fst item)) in
  let value_js := json_dumps (snd item) in
  execute_script (set_item_script key_js value_js) [] ;;
  ret tt.

Definition load_storage : M W unit :=
  try_except
    (present <- path_exists (storage_path self) ;;
     if present : bool then
       content <- read_file (storage_path self) ;;
       data <- lift (pickle_loads content) ;;
       for_each (cookies data) replay_cookie ;;
       for_each (local_storage data) replay_item ;;
       logger INFO "Loaded storage data"
     else ret tt)
    is_FileNotFoundError
    (fun _ => logger INFO "未找到存储的数据").

Definition init : M W unit :=
  ready <- read_initialized ;;
  if negb ready then
    open_portal ;;
    wait_login_page ;;
    delay_loading ;;
    load_storage ;;
    assign_initialized true
  else ret tt.

(** [None] if not sure, [Some true] if logged, [Some false] if not. *)
Definition is_logged : M W (option bool) :=
  url <- query drv_current_url ;;
  if startswith "about:" url then ret None
  else
    url' <- query drv_current_url ;;
    fragment <- lift (urlparse_fragment url') ;;
    if any_keyword_in (must_be_logged_keywords self) fragment then ret (Some true)
    else if any_keyword_in (must_not_logged_keywords self) fragment then ret (Some false)
    else
      page <- query drv_page_source ;;
      if str_in workspace_marker page then
        page' <- query drv_page_source ;;
        ret (Some (negb (str_in local_password_marker page')))
      else ret (Some false).

(** [ATrustLoginStorage(cookies=..., local_storage=...)]: validation
    accepts only a dict for [local_storage]. *)
Definition new_storage (cs : list pydict) (ls : pyval) : M W ATrustLoginStorage :=
  match ls with
  | PyDict d => ret (mkStorage cs d)
  | _ => raise ValidationError
  end.

Definition update_storage : M W unit :=
  cs <- driver GetCookies drv_get_cookies ;;
  ls <- execute_script read_local_storage_script [] ;;
  data <- new_storage cs ls ;;
  write_file (storage_path self) (pickle_dumps data).

(** Lines 175-186 of [login]: what follows the already-logged-in check.
    Falling off the end returns Python's [None]. *)
Definition login_submit (username password : string) : M W (option bool) :=
  enter_credentials username password ;;
  delay_input ;;
  click_login_button ;;
  logger INFO "Performed basic login action" ;;
  delay_loading ;;
  logged <- is_logged ;;
  if truthy logged then
    logger INFO "Login Success" ;;
    update_storage ;;
    ret (Some true)
  else ret None.

Definition login (username password : string) : M W (option bool) :=
  init ;;
  logged <- is_logged ;;
  if truthy logged then
    logger INFO "Already logged in" ;;
    ret (Some true)
  else login_submit username password.

Definition close : M W unit := driver Quit drv_quit.

(** [exit(code)] raises [SystemExit]. *)
Definition exit {A} (code : Z) : M W A := raise (SystemExit code).

(** ** [main]: the keepalive loop *)

Variables username password : string.
Variable keepalive : Q.

(** Lines 252-258. *)
Definition detect_login_step : M W unit :=
  logged <- is_logged ;;
  if negb (truthy logged) then
    logger INFO "Session lost. Trying to login again ..." ;;
    open_portal ;;
    delay_loading ;;
    r <- login username password ;;
    if is_True r then delay_loading ;; delay_loading else ret tt
  else ret tt.

(** Lines 260-266. *)
Definition exit_or_sleep_step : M W unit :=
  if Qle_bool keepalive 0 then
    close ;;
    exit 0
  else
    time_sleep keepalive ;;
    open_portal ;;
    delay_loading.

(** Lines 267-270. *)
Definition on_error (e : exn) : M W unit :=
  logger ERROR "An error occurred when trying to login, retrying ..." ;;
  logger_exception e [("username", username); ("password", password)] ;;
  delay_loading.

(** One iteration of [while True]. *)
Definition cycle : M W unit :=
  try_except (detect_login_step ;; exit_or_sleep_step) is_Exception on_error.

(** How a run ends: the process terminated with an exception that
    nothing caught ([SystemExit 0] is a successful exit), or the loop was
    still running when the fuel ran out. *)
Inductive run_result : Type :=
| Terminated (e : exn)
| Running.

Fixpoint keepalive_loop (fuel : nat) (s : state W) : run_result * state W :=
  match fuel with
  | O => (Running, s)
  | S fuel' =>
      match cycle s with
      | (Ok _, s') => keepalive_loop fuel' s'
      | (Raised e, s') => (Terminated e, s')
      end
  end.

(** [main] from [at.init()] on (line 248); the object construction of
    line 246 is the state [main] starts in. *)
Definition main (fuel : nat) (s : state W) : run_result * state W :=
  match init s with
  | (Ok _, s') => keepalive_loop fuel s'
  | (Raised e, s') => (Terminated e, s')
  end.
End Methods.

(** ** [ATrustLogin.__init__]: the choice of the browser engine *)

(** Lines 36-41: an unset [driver_type] follows [platform.system()]. *)
Definition resolve_driver_type (driver_type : option string) (system : string) : string :=
  match driver_type with
  | None => if String.eqb system "Windows" then "edge" else "chrome"
  | Some t => t
  end.

Inductive engine : Type := Edge | Chrome.

(** Lines 45-50 (which [Options] and [Service] are imported) and lines
    74-77 (which driver class is instantiated) make the same test. *)
Definition options_engine (driver_type : string) : engine :=
  if String.eqb driver_type "edge" then Edge else Chrome.

Definition driver_engine (driver_type : string) : engine :=
  if String.eqb driver_type "edge" then Edge else Chrome.

(** ** [ATrustLogin.wait_for_port] and the start of [main] *)

(** What [s.connect((host, port))] does: it succeeds, or raises one of the
    two exceptions the loop retries on, or raises something else. *)
Inductive connect_outcome : Type :=
| Connected
| SocketTimeout
| ConnectionRefused
| ConnectFailed (e : exn).

(** [str(n)] for an [int]. *)
Definition str_of_int (n : Z) : string := NilZero.string_of_int (Z.to_int n).

Definition port_detected_message (port : Z) : string :=
  "Detected aTrust is listening on port " ++ str_of_int port.

Definition port_waiting_message (port : Z) : string :=
  "aTrust Port " ++ str_of_int port ++
  " is not yet being listened on. Waiting for aTrust start ...".

Section Preflight.
Context {W : Type} `{World W}.

(** The local network as the process sees it: one connection attempt. *)
Variable sock_connect : string -> Z -> W -> connect_outcome * W.

(** [while True] of [wait_for_port], with fuel; [None] when the fuel runs
    out while the port is still closed. *)
Fixpoint wait_for_port (fuel : nat) (port : Z) (host : string) (loading_d : Q)
    (s : state W) : option (outcome unit) * state W :=
  match fuel with
  | O => (None, s)
  | S fuel' =>
      let '(c, w') := sock_connect host port (browser s) in
      let s1 := set_browser w' s in
      match c with
      | Connected => (Some (Ok tt), emit (Log INFO (port_detected_message port)) s1)
      | SocketTimeout | ConnectionRefused =>
          match (logger INFO (port_waiting_message port) ;; time_sleep loading_d) s1 with
          | (Ok _, s2) => wait_for_port fuel' port host loading_d s2
          | (Raised e, s2) => (Some (Raised e), s2)
          end
      | ConnectFailed e => (Some (Raised e), s1)
      end
  end.

(** Lines 240-243 of [main]. *)
Definition preflight (wait_atrust : bool) (loading_d : Q) (fuel : nat)
    (s : state W) : option (outcome unit) * state W :=
  let s0 := emit (Log INFO "Opening Web Browser") s in
  if wait_atrust then wait_for_port fuel 54631 "localhost" loading_d s0
  else (Some (Ok tt), s0).
End Preflight.

(** ** A small simulated portal

    An executable instance of [World], used to run the program on concrete
    scenarios.  The portal shows its login form at fragment [#/login] and
    the workspace at [#/app_center]; it accepts exactly one account. *)
Module Toy.

Record toy : Type := mkToy {
  t_url : string;
  t_page : string;
  t_session : bool;            (* the portal considers the browser logged in *)
  t_account : string * string; (* the credentials the portal accepts *)
  t_user_field : string;
  t_pw_field : string;
  t_alive : bool;              (* the browser process is running *)
  t_nav_failures : nat;        (* upcoming navigations that time out *)
  t_cookies : list pydict;
  t_local_storage : pydict
}.

Definition login_page : string :=
  "<div class='server-name'>本地密码</div><input id='userName'>" ++
  "<input id='password'><button id='loginBtn'>登录</button>".
Definition workspace_page : string := "<h1>工作台</h1>".

Definition dead {A} (w : toy) : outcome A * toy :=
  (Raised (WebDriverException "invalid session id"), w).

Definition show (base : string) (w : toy) : toy :=
  if t_session w
  then mkToy (base ++ "#/app_center") workspace_page true (t_account w) "" ""
         (t_alive w) (t_nav_failures w) (t_cookies w) (t_local_storage w)
  else mkToy (base ++ "#/login") login_page false (t_account w) "" ""
         (t_alive w) (t_nav_failures w) (t_cookies w) (t_local_storage w).

Definition toy_get (url : string) (w : toy) : outcome unit * toy :=
  if negb (t_alive w) then dead w
  else
    match t_nav_failures w with
    | S n =>
        (Raised TimeoutException,
         mkToy (t_url w) (t_page w) (t_session w) (t_account w) (t_user_field w)
           (t_pw_field w) (t_alive w) n (t_cookies w) (t_local_storage w))
    | O =>
        if startswith "about:" url
        then (Ok tt,
              mkToy url "" (t_session w) (t_account w) "" "" (t_alive w) 0
                (t_cookies w) (t_local_storage w))
        else (Ok tt, show url w)
    end.

Definition toy_query (f : toy -> string) (w : toy) : outcome string :=
  if t_alive w then Ok (f w)
  else Raised (WebDriverException "invalid session id").

Definition toy_unit (w : toy) : outcome unit * toy :=
  if t_alive w then (Ok tt, w) else dead w.

(** The page shows an element with this [id] attribute. *)
Definition has_id (value : string) (w : toy) : bool :=
  str_in ("id='" ++ value ++ "'") (t_page w).

Definition toy_find (how : By) (value : string) (w : toy) : outcome element * toy :=
  if negb (t_alive w) then dead w
  else
    match how with
    | By_ID =>
        if has_id value w then (Ok value, w) else (Raised NoSuchElementException, w)
    | By_XPATH =>
        if str_in local_password_marker (t_page w) then (Ok "switcher", w)
        else (Raised NoSuchElementException, w)
    end.

Definition toy_wait_clickable (how : By) (value : string) (w : toy) : outcome unit * toy :=
  if negb (t_alive w) then dead w
  else
    match how with
    | By_ID => if has_id value w then (Ok tt, w) else (Raised TimeoutException, w)
    | By_XPATH => (Ok tt, w)
    end.

Definition toy_script (script : string) (args : list element) (w : toy)
    : outcome pyval * toy :=
  if negb (t_alive w) then dead w
  else if String.eqb script read_local_storage_script
       then (Ok (PyDict (t_local_storage w)), w)
       else (Ok PyNone, w).

Definition is_named (name : pyval) (cookie : pydict) : bool :=
  match name, dict_get "name" cookie with
  | PyStr n, Some (PyStr m) => String.eqb n m
  | _, _ => false
  end.

Definition toy_delete_cookie (name : pyval) (w : toy) : outcome unit * toy :=
  if negb (t_alive w) then dead w
  else (Ok tt,
        mkToy (t_url w) (t_page w) (t_session w) (t_account w) (t_user_field w)
          (t_pw_field w) true (t_nav_failures w)
          (List.filter (fun c => negb (is_named name c)) (t_cookies w))
          (t_local_storage w)).

Definition toy_add_cookie (cookie : pydict) (w : toy) : outcome unit * toy :=
  if negb (t_alive w) then dead w
  else (Ok tt,
        mkToy (t_url w) (t_page w) (t_session w) (t_account w) (t_user_field w)
          (t_pw_field w) true (t_nav_failures w) (t_cookies w ++ [cookie])
          (t_local_storage w)).

Definition toy_get_cookies (w : toy) : outcome (list pydict) * toy :=
  if t_alive w then (Ok (t_cookies w), w) else dead w.

Definition toy_quit (w : toy) : outcome unit * toy :=
  (Ok tt,
   mkToy (t_url w) (t_page w) (t_session w) (t_account w) (t_user_field w)
     (t_pw_field w) false (t_nav_failures w) (t_cookies w) (t_local_storage w)).

Definition toy_is_displayed (el : element) (w : toy) : outcome bool * toy :=
  if t_alive w then (Ok true, w) else dead w.

Definition session_cookie : pydict :=
  [("name", PyStr "sid"); ("value", PyStr "7f3a"); ("domain", PyStr "portal.example");
   ("path", PyStr "/"); ("expiry", PyInt 1893456000); ("secure", PyBool true);
   ("httpOnly", PyBool true); ("sameSite", PyStr "Lax")].

Definition base_of (url : string) : string :=
  match String.index 0 "#" url with
  | Some i => String.substring 0 i url
  | None => url
  end.

(** Clicking the login button submits the form: the portal opens a session
    if the typed credentials are those of its account. *)
Definition toy_click (el : element) (w : toy) : outcome unit * toy :=
  if negb (t_alive w) then dead w
  else if String.eqb el "loginBtn" then
    if String.eqb (t_user_field w) (fst (t_account w)) &&
       String.eqb (t_pw_field w) (snd (t_account w))
    then (Ok tt,
          mkToy (base_of (t_url w) ++ "#/app_center") workspace_page true
            (t_account w) "" "" true (t_nav_failures w)
            (t_cookies w ++ [session_cookie])
            (("token", PyStr "abc") :: t_local_storage w))
    else (Ok tt, w)
  else (Ok tt, w).

Definition toy_clear (el : element) (w : toy) : outcome unit * toy :=
  if negb (t_alive w) then dead w
  else if String.eqb el "userName" then
    (Ok tt, mkToy (t_url w) (t_page w) (t_session w) (t_account w) ""
              (t_pw_field w) true (t_nav_failures w) (t_cookies w) (t_local_storage w))
  else if String.eqb el "password" then
    (Ok tt, mkToy (t_url w) (t_page w) (t_session w) (t_account w) (t_user_field w)
              "" true (t_nav_failures w) (t_cookies w) (t_local_storage w))
  else (Ok tt, w).

Definition toy_send_keys (el : element) (text : string) (w : toy) : outcome unit * toy :=
  if negb (t_alive w) then dead w
  else if String.eqb el "userName" then
    (Ok tt, mkToy (t_url w) (t_page w) (t_session w) (t_account w)
              (t_user_field w ++ text) (t_pw_field w) true (t_nav_failures w)
              (t_cookies w) (t_local_storage w))
  else if String.eqb el "password" then
    (Ok tt, mkToy (t_url w) (t_page w) (t_session w) (t_account w) (t_user_field w)
              (t_pw_field w ++ text) true (t_nav_failures w) (t_cookies w)
              (t_local_storage w))
  else (Ok tt, w).

#[export] Instance toy_world : World toy := {|
  drv_get := toy_get;
  drv_current_url := toy_query t_url;
  drv_page_source := toy_query t_page;
  drv_wait_ready := toy_unit;
  drv_wait_clickable := toy_wait_clickable;
  drv_find_element := toy_find;
  drv_execute_script := toy_script;
  drv_delete_cookie := toy_delete_cookie;
  drv_add_cookie := toy_add_cookie;
  drv_get_cookies := toy_get_cookies;
  drv_quit := toy_quit;
  el_is_displayed := toy_is_displayed;
  el_click := toy_click;
  el_clear := toy_clear;
  el_send_keys := toy_send_keys;
  env_sleep := fun _ w => Some w;
  env_write := fun _ _ _ => Written
|}.

(** [urlparse(url).fragment] on the URLs of the scenarios: the text after
    the first [#]. *)
Definition toy_fragment (url : string) : outcome string :=
  match String.index 0 "#" url with
  | Some i => Ok (String.substring (S i) (String.length url - S i) url)
  | None => Ok ""
  end.

Definition quote : string := String (ascii_of_nat 34) EmptyString.

(** [json.dumps] on the values of the scenarios (strings without
    characters that need escaping). *)
Definition toy_json (v : pyval) : string :=
  match v with
  | PyStr s => quote ++ s ++ quote
  | PyBool true => "true"
  | PyBool false => "false"
  | _ => "null"
  end.

(** Modelled from the spec: the byte format of the artifact file.  The
    source hands the format to [pickle], which is not part of the
    repository; the spec leaves the format open (structured binary or JSON)
    and asks only that it round-trips.  The format here is a structured
    one: a tag, then a decimal integer closed by [;], or a decimal length
    closed by [:] followed by that many bytes or items.  [toy_dumps] stands
    for [pickle.dump] and [toy_loads] for [pickle.load]. *)
Definition z2s (z : Z) : string := NilZero.string_of_int (Z.to_int z).
Definition n2s (n : nat) : string := z2s (Z.of_nat n).
Definition s2z (text : string) : option Z :=
  Z.of_int <$> NilZero.int_of_string text.
Definition s2n (text : string) : option nat :=
  z ← s2z text; if (0 <=? z)%Z then Some (Z.to_nat z) else None.

Definition enc_str (text : string) : string :=
  "S" ++ n2s (String.length text) ++ ":" ++ text.

Fixpoint enc (v : pyval) : string :=
  match v with
  | PyNone => "N"
  | PyBool true => "T"
  | PyBool false => "F"
  | PyInt z => "I" ++ z2s z ++ ";"
  | PyStr text => enc_str text
  | PyList l =>
      "L" ++ n2s (List.length l) ++ ":" ++
      (fix items (l : list pyval) : string :=
         match l with
         | [] => EmptyString
         | x :: l' => (enc x ++ items l')%string
         end) l
  | PyDict d =>
      "D" ++ n2s (List.length d) ++ ":" ++
      (fix entries (d : list (string * pyval)) : string :=
         match d with
         | [] => EmptyString
         | (k, x) :: d' => (enc_str k ++ enc x ++ entries d')%string
         end) d
  end.

Definition toy_dumps (data : ATrustLoginStorage) : list Byte.byte :=
  list_byte_of_string
    ("P" ++ enc (PyList (map PyDict (cookies data))) ++ enc (PyDict (local_storage data))).

(** Split [text] at the first occurrence of [stop]. *)
Fixpoint read_until (stop : ascii) (text : string) : option (string * string) :=
  match text with
  | EmptyString => None
  | String c rest =>
      if Ascii.eqb c stop then Some (EmptyString, rest)
      else '(before, after) ← read_until stop rest; Some (String c before, after)
  end.

Definition take_str (n : nat) (text : string) : option (string * string) :=
  if (n <=? String.length text)%nat
  then Some (String.substring 0 n text, String.substring n (String.length text - n) text)
  else None.

Fixpoint dec (fuel : nat) (text : string) : option (pyval * string) :=
  match fuel, text with
  | S fuel', String tag rest =>
      if Ascii.eqb tag "N" then Some (PyNone, rest)
      else if Ascii.eqb tag "T" then Some (PyBool true, rest)
      else if Ascii.eqb tag "F" then Some (PyBool false, rest)
      else if Ascii.eqb tag "I" then
        '(num, rest1) ← read_until ";" rest;
        z ← s2z num; Some (PyInt z, rest1)
      else if Ascii.eqb tag "S" then
        '(num, rest1) ← read_until ":" rest;
        n ← s2n num;
        '(body, rest2) ← take_str n rest1; Some (PyStr body, rest2)
      else if Ascii.eqb tag "L" then
        '(num, rest1) ← read_until ":" rest;
        n ← s2n num;
        '(l, rest2) ←
          (fix items (n : nat) (text : string) : option (list pyval * string) :=
             match n with
             | O => Some ([], text)
             | S n' =>
                 '(x, text1) ← dec fuel' text;
                 '(l, text2) ← items n' text1; Some (x :: l, text2)
             end) n rest1;
        Some (PyList l, rest2)
      else if Ascii.eqb tag "D" then
        '(num, rest1) ← read_until ":" rest;
        n ← s2n num;
        '(d, rest2) ←
          (fix entries (n : nat) (text : string) : option (pydict * string) :=
             match n with
             | O => Some ([], text)
             | S n' =>
                 '(k, text1) ← dec fuel' text;
                 match k with
                 | PyStr key =>
                     '(x, text2) ← dec fuel' text1;
                     '(d, text3) ← entries n' text2; Some ((key, x) :: d, text3)
                 | _ => None
                 end
             end) n rest1;
        Some (PyDict d, rest2)
      else None
  | _, _ => None
  end.

Fixpoint all_dicts (l : list pyval) : option (list pydict) :=
  match l with
  | [] => Some []
  | PyDict d :: l' => ds ← all_dicts l'; Some (d :: ds)
  | _ :: _ => None
  end.

Definition toy_loads (content : list Byte.byte) : outcome ATrustLoginStorage :=
  let text := string_of_list_byte content in
  let decoded :=
    match text with
    | String tag rest =>
        if Ascii.eqb tag "P" then
          '(cs, rest1) ← dec (String.length text) rest;
          '(ls, rest2) ← dec (String.length text) rest1;
          match cs, ls, rest2 with
          | PyList l, PyDict d, EmptyString => ds ← all_dicts l; Some (mkStorage ds d)
          | _, _, _ => None
          end
        else None
    | EmptyString => None
    end in
  match decoded with
  | Some data => Ok data
  | None => Raised UnpicklingError
  end.

(** The items of a list, encoded one after the other. *)
Definition enc_items (enc : pyval → string) : list pyval → string :=
  fix items (l : list pyval) : string :=
    match l with
    | [] => EmptyString
    | x :: l' => (enc x ++ items l')%string
    end.

Definition enc_entries (enc : pyval → string) : list (string * pyval) → string :=
  fix entries (d : list (string * pyval)) : string :=
    match d with
    | [] => EmptyString
    | (k, x) :: d' => (enc_str k ++ enc x ++ entries d')%string
    end.

Definition dec_items (dec1 : string → option (pyval * string))
    : nat → string → option (list pyval * string) :=
  fix items (n : nat) (text : string) : option (list pyval * string) :=
    match n with
    | O => Some ([], text)
    | S n' =>
        '(x, text1) ← dec1 text;
        '(l, text2) ← items n' text1; Some (x :: l, text2)
    end.

Definition dec_entries (dec1 : string → option (pyval * string))
    : nat → string → option (pydict * string) :=
  fix entries (n : nat) (text : string) : option (pydict * string) :=
    match n with
    | O => Some ([], text)
    | S n' =>
        '(k, text1) ← dec1 text;
        match k with
        | PyStr key =>
            '(x, text2) ← dec1 text1;
            '(d, text3) ← entries n' text2; Some ((key, x) :: d, text3)
        | _ => None
        end
    end.

End Toy.


(** ** Scenarios on the simulated portal *)
Module Scenario.
Import Toy.

Definition portal : string := "https://portal.example/".

Definition at0 : ATrustLogin := ATrustLogin_init portal "./data" false (1 # 2) 5.

(** A browser that has just been started. *)
Definition browser0 : toy :=
  mkToy "data:," "" false ("alice", "secret") "" "" true 0 [] [].

Definition toy_is_logged : M toy (option bool) := is_logged toy_fragment at0.
Definition toy_load_storage : M toy unit := load_storage toy_json toy_loads at0.
Definition toy_update_storage : M toy unit := update_storage toy_dumps at0.
Definition toy_init : M toy unit := init toy_json toy_loads at0.
Definition toy_login (user pw : string) : M toy (option bool) :=
  login toy_fragment toy_json toy_dumps toy_loads at0 user pw.
Definition toy_detect_login_step (user pw : string) : M toy unit :=
  detect_login_step toy_fragment toy_json toy_dumps toy_loads at0 user pw.
Definition toy_cycle (keepalive : Q) (user pw : string) : M toy unit :=
  cycle toy_fragment toy_json toy_dumps toy_loads at0 user pw keepalive.
Definition toy_loop (keepalive : Q) (user pw : string) (fuel : nat) :=
  keepalive_loop toy_fragment toy_json toy_dumps toy_loads at0 user pw keepalive fuel.

Definition run_main (keepalive : Q) (user pw : string) (fuel : nat)
    (w : toy) (files : gmap string (list Byte.byte)) :=
  main toy_fragment toy_json toy_dumps toy_loads at0 user pw keepalive fuel (fresh w files).

(** The object just constructed on a fresh data directory. *)
Definition s_fresh : state toy := fresh browser0 ∅.

(** The same, with a network glitch ahead: the first navigation times out. *)
Definition s_glitch : state toy :=
  fresh (mkToy "data:," "" false ("alice", "secret") "" "" true 1 [] []) ∅.

(** Initialised, showing the login form. *)
Definition s_ready : state toy := snd (toy_init s_fresh).



(** After a successful login from the fresh state. *)
Definition s_logged_in : state toy := snd (toy_login "alice" "secret" s_fresh).

(** A data directory whose artifact file holds bytes that do not decode. *)
Definition corrupt_files : gmap string (list Byte.byte) :=
  {[ storage_path at0 := [Byte.x80; Byte.x04; Byte.xff] ]}.

End Scenario.

(** ** The simulated portal behind a local service that starts late *)
Module PortScenario.
Import Toy Scenario.

(** The browser, and how many more connection attempts the local service
    will refuse before it listens. *)
Definition host_world : Type := nat * toy.

Definition on_browser {A} (op : toy -> outcome A * toy) (hw : host_world)
    : outcome A * host_world :=
  let '(r, w') := op (snd hw) in (r, (fst hw, w')).

#[export] Instance host_world_world : World host_world := {|
  drv_get := fun url => on_browser (toy_get url);
  drv_current_url := fun hw => toy_query t_url (snd hw);
  drv_page_source := fun hw => toy_query t_page (snd hw);
  drv_wait_ready := on_browser toy_unit;
  drv_wait_clickable := fun how value => on_browser (toy_wait_clickable how value);
  drv_find_element := fun how value => on_browser (toy_find how value);
  drv_execute_script := fun script args => on_browser (toy_script script args);
  drv_delete_cookie := fun name => on_browser (toy_delete_cookie name);
  drv_add_cookie := fun cookie => on_browser (toy_add_cookie cookie);
  drv_get_cookies := on_browser toy_get_cookies;
  drv_quit := on_browser toy_quit;
  el_is_displayed := fun el => on_browser (toy_is_displayed el);
  el_click := fun el => on_browser (toy_click el);
  el_clear := fun el => on_browser (toy_clear el);
  el_send_keys := fun el text => on_browser (toy_send_keys el text);
  env_sleep := fun _ hw => Some hw;
  env_write := fun _ _ _ => Written
|}.

Definition port_connect (host : string) (port : Z) (hw : host_world)
    : connect_outcome * host_world :=
  match fst hw with
  | S n => (ConnectionRefused, (n, snd hw))
  | O => (Connected, hw)
  end.

(** The service listens from the third attempt on. *)
Definition s_late : state host_world := fresh (2, browser0) ∅.

End PortScenario.

(** ** The simulated portal with a single login method

    The same portal, but its login form offers no choice of method: no
    element matches the XPath of the method switcher. *)
Module PlainPortal.
Import Toy Scenario.

Record plain : Type := mkPlain { plain_browser : toy }.

Definition on_toy {A} (op : toy -> outcome A * toy) (p : plain) : outcome A * plain :=
  let '(r, w') := op (plain_browser p) in (r, mkPlain w').

Definition plain_find (how : By) (value : string) (p : plain) : outcome element * plain :=
  match how with
  | By_ID => on_toy (toy_find By_ID value) p
  | By_XPATH =>
      if t_alive (plain_browser p) then (Raised NoSuchElementException, p)
      else on_toy dead p
  end.

#[export] Instance plain_world : World plain := {|
  drv_get := fun url => on_toy (toy_get url);
  drv_current_url := fun p => toy_query t_url (plain_browser p);
  drv_page_source := fun p => toy_query t_page (plain_browser p);
  drv_wait_ready := on_toy toy_unit;
  drv_wait_clickable := fun how value => on_toy (toy_wait_clickable how value);
  drv_find_element := plain_find;
  drv_execute_script := fun script args => on_toy (toy_script script args);
  drv_delete_cookie := fun name => on_toy (toy_delete_cookie name);
  drv_add_cookie := fun cookie => on_toy (toy_add_cookie cookie);
  drv_get_cookies := on_toy toy_get_cookies;
  drv_quit := on_toy toy_quit;
  el_is_displayed := fun el => on_toy (toy_is_displayed el);
  el_click := fun el => on_toy (toy_click el);
  el_clear := fun el => on_toy (toy_clear el);
  el_send_keys := fun el text => on_toy (toy_send_keys el text);
  env_sleep := fun _ p => Some p;
  env_write := fun _ _ _ => Written
|}.



End PlainPortal.

(** ** Vocabulary of the statements *)

(** [s] begins with [p]. *)
Definition has_prefix (p s : string) : Prop := ∃ rest, s = (p ++ rest)%string.

(** [k] occurs somewhere in [s]. *)
Definition occurs_in (k s : string) : Prop := ∃ before after, s = (before ++ k ++ after)%string.

(** Some keyword of [keywords] occurs in [text]. *)
Definition some_keyword_in (keywords : list string) (text : string) : Prop :=
  Exists (fun k => occurs_in k text) keywords.

(** [m] relates every start state to its end state by [R], whether it
    returns or raises. *)
Definition respects {W A} (R : state W → state W → Prop) (m : M W A) : Prop :=
  ∀ s r s', m s = (r, s') → R s s'.

(** Relations on states that hold across the steps of the environment:
    they are preorders, do not look at the browser, and hold across the
    emission of the events in [allowed]. *)
Class Frame {W} (R : state W → state W → Prop) (allowed : event → Prop) : Prop := {
  frame_refl : ∀ s, R s s;
  frame_trans : ∀ s1 s2 s3, R s1 s2 → R s2 s3 → R s1 s3;
  frame_browser : ∀ s w, R s (set_browser w s);
  frame_emit : ∀ s e, allowed e → R s (emit e s)
}.

(** ... that hold across a file write. *)
Class FrameFs {W} (R : state W → state W → Prop) : Prop :=
  frame_fs : ∀ s f, R s (set_fs f s).

(** ... that hold across an assignment to [self.initialized]. *)
Class FrameInit {W} (R : state W → state W → Prop) : Prop :=
  frame_init : ∀ s b, R s (set_initialized b s).

Definition keeps_initialized {W} (s s' : state W) : Prop :=
  initialized s' = initialized s.

Definition keeps_fs {W} (s s' : state W) : Prop := fs s' = fs s.

(** The trace only grows, and by events that [P] rejects. *)
Definition quiet_for {W} (P : event → bool) (s s' : state W) : Prop :=
  ∃ evs, trace s' = trace s ++ evs ∧ forallb (fun e => negb (P e)) evs = true.

(** The first command of [enter_credentials]: one such event per
    submission attempt. *)
Definition is_submit_start (e : event) : bool :=
  match e with
  | Cmd (FindElement By_XPATH value) => String.eqb value method_switcher_xpath
  | _ => false
  end.

Definition is_quit (e : event) : bool :=
  match e with
  | Cmd Quit => true
  | _ => false
  end.

Definition is_command (e : event) : bool :=
  match e with
  | Cmd _ => true
  | _ => false
  end.

Definition count_events (P : event → bool) (tr : list event) : nat :=
  List.length (List.filter P tr).

Definition submit_attempts (tr : list event) : nat := count_events is_submit_start tr.

Definition quits (tr : list event) : nat := count_events is_quit tr.

(** The [add_cookie] commands of a trace, in order. *)
Definition cookies_added (tr : list event) : list pydict :=
  omap (fun e => match e with Cmd (AddCookie c) => Some c | _ => None end) tr.

(** The scripts run by a trace, in order. *)
Definition scripts_run (tr : list event) : list string :=
  omap (fun e => match e with Cmd (ExecuteScript src _) => Some src | _ => None end) tr.

(** The trace grows by [first] followed by events that [P] rejects. *)
Definition starts_with {W} (first : event) (P : event → bool) (s s' : state W) : Prop :=
  ∃ evs, trace s' = trace s ++ first :: evs ∧ forallb (fun e => negb (P e)) evs = true.

(** No event is singled out. *)
Definition any_event (e : event) : bool := false.

(** Every value [m] returns satisfies [Q]. *)
Definition returns_in {W A} (Q : A → Prop) (m : M W A) : Prop :=
  ∀ s a s', m s = (Ok a, s') → Q a.

Definition is_not_command (e : event) : bool := negb (is_command e).

(** The script [load_storage] runs for a local-storage entry. *)
Definition set_item_of (json_dumps : pyval → string) (item : string * pyval) : string :=
  set_item_script (json_dumps (PyStr (fst item))) (json_dumps (snd item)).

(** Files other than the artifact file are as they were. *)
Definition keeps_other_files {W} (self : ATrustLogin) (s s' : state W) : Prop :=
  ∀ path, path ≠ storage_path self → fs s' !! path = fs s !! path.

(** The trace only grows, and by at most [n] events that [P] accepts. *)
Definition at_most {W} (P : event → bool) (n : nat) (s s' : state W) : Prop :=
  ∃ evs, trace s' = trace s ++ evs ∧ (count_events P evs ≤ n)%nat.

Definition is_send_keys (e : event) : bool :=
  match e with
  | Cmd (SendKeys _ _) => true
  | _ => false
  end.

(** What a trace types, and where, in order. *)
Definition keys_sent (tr : list event) : list (element * string) :=
  omap (fun e => match e with Cmd (SendKeys el text) => Some (el, text) | _ => None end) tr.

Definition is_login_button_lookup (e : event) : bool :=
  match e with
  | Cmd (FindElement By_ID value) => String.eqb value "loginBtn"
  | _ => false
  end.

Definition is_navigation (e : event) : bool :=
  match e with
  | Cmd (Get _) => true
  | _ => false
  end.

Definition is_sleep (e : event) : bool :=
  match e with
  | Sleep _ => true
  | _ => false
  end.



(** The commands that restore [data] into the browser. *)
Definition replay_commands (json_dumps : pyval → string) (data : ATrustLoginStorage)
    : list event :=
  flat_map
    (fun c => match dict_get "name" c with
              | Some name => [Cmd (DeleteCookie name); Cmd (AddCookie c)]
              | None => []
              end)
    (cookies data) ++
  map (fun item => Cmd (ExecuteScript (set_item_of json_dumps item) []))
    (local_storage data).

(** What [wait_for_port] leaves in the trace for [n] refused attempts. *)
Fixpoint retry_events (port : Z) (loading_d : Q) (n : nat) : list event :=
  match n with
  | O => []
  | S n' =>
      Log INFO (port_waiting_message port) :: Sleep loading_d ::
      retry_events port loading_d n'
  end.

(** From [w], [n] connection attempts in a row were refused or timed out,
    each followed by a pause of [loading_d] that ran to its end, and the
    world is then [w']. *)
Fixpoint refused_attempts {W} `{World W}
    (sock_connect : string → Z → W → connect_outcome * W)
    (host : string) (port : Z) (loading_d : Q) (n : nat) (w w' : W) : Prop :=
  match n with
  | O => w' = w
  | S n' =>
      ∃ c w1 w2,
        sock_connect host port w = (c, w1) ∧
        (c = SocketTimeout ∨ c = ConnectionRefused) ∧
        env_sleep loading_d w1 = Some w2 ∧
        refused_attempts sock_connect host port loading_d n' w2 w'
  end.

(** * Properties *)

(** ** Strings *)

Lemma startswith_spec (p s : string) : startswith p s = true ↔ has_prefix p s.
Proof.
  unfold has_prefix. revert s. induction p as [|a p IH]; intros s; simpl.
  - split; [intros _; by exists s | done].
  - destruct s as [|b s].
    + split; [done | intros [rest Hrest]; discriminate].
    + destruct (Ascii.eqb_spec a b) as [-> | Hne].
      * rewrite IH. split; intros [rest Hrest]; exists rest.
        -- by rewrite Hrest.
        -- by injection Hrest.
      * split; [done | intros [rest Hrest]; injection Hrest; congruence].
Qed.

Lemma str_in_spec (k s : string) : str_in k s = true ↔ occurs_in k s.
Proof.
  unfold occurs_in. induction s as [|a s IH]; simpl.
  - rewrite orb_false_r, startswith_spec. split.
    + intros [rest Hrest]. by exists EmptyString, rest.
    + intros [[|b before] [after Heq]]; [by exists after | discriminate].
  - rewrite orb_true_iff, startswith_spec, IH. split.
    + intros [[rest Hrest] | (before & after & Heq)].
      * by exists EmptyString, rest.
      * exists (String a before), after. simpl. by rewrite Heq.
    + intros [[|b before] [after Heq]].
      * left. by exists after.
      * right. exists before, after. simpl in Heq. by injection Heq.
Qed.

Lemma any_keyword_in_spec (keywords : list string) (text : string) :
  any_keyword_in keywords text = true ↔ some_keyword_in keywords text.
Proof.
  unfold any_keyword_in, some_keyword_in. rewrite List.existsb_exists, List.Exists_exists.
  split; intros (k & Hin & Hk); exists k; split; try done; by apply str_in_spec.
Qed.

Lemma any_keyword_in_false (keywords : list string) (text : string) :
  ¬ some_keyword_in keywords text → any_keyword_in keywords text = false.
Proof.
  intros Hno. destruct (any_keyword_in keywords text) eqn:E; [|done].
  by apply any_keyword_in_spec in E.
Qed.

(** ** Relations kept by the monad's combinators and primitives *)

Section Combinators.
Context {W : Type} `{World W}.
Context (R : state W → state W → Prop) (allowed : event → Prop) `{!Frame R allowed}.

Lemma respects_ret {A} (a : A) : respects R (ret a).
Proof. intros s r s' [= <- <-]. apply frame_refl. Qed.

Lemma respects_raise {A} (e : exn) : respects R (@raise W A e).
Proof. intros s r s' [= <- <-]. apply frame_refl. Qed.

Lemma respects_lift {A} (r : outcome A) : respects R (lift r).
Proof. intros s r' s' [= <- <-]. apply frame_refl. Qed.

Lemma respects_query {A} (q : W → outcome A) : respects R (query q).
Proof. intros s r s' [= <- <-]. apply frame_refl. Qed.

Lemma respects_bind {A B} (m : M W A) (f : A → M W B) :
  respects R m → (∀ a, respects R (f a)) → respects R (bind m f).
Proof.
  intros Hm Hf s r s'. unfold bind.
  destruct (m s) as [[a|e] s1] eqn:E; intros E'.
  - eapply frame_trans; [by eapply Hm | by eapply Hf].
  - injection E' as <- <-. by eapply Hm.
Qed.

Lemma respects_try_except {A} (body : M W A) catches (handler : exn → M W A) :
  respects R body → (∀ e, respects R (handler e)) →
  respects R (try_except body catches handler).
Proof.
  intros Hb Hh s r s'. unfold try_except.
  destruct (body s) as [[a|e] s1] eqn:E; intros E'.
  - injection E' as <- <-. by eapply Hb.
  - destruct (catches e).
    + eapply frame_trans; [by eapply Hb | by eapply Hh].
    + injection E' as <- <-. by eapply Hb.
Qed.

Lemma respects_for_each {A} (xs : list A) (body : A → M W unit) :
  (∀ x, respects R (body x)) → respects R (for_each xs body).
Proof.
  intros Hb. induction xs as [|x xs IH]; simpl.
  - apply respects_ret.
  - apply respects_bind; [apply Hb | intros _; apply IH].
Qed.

Lemma respects_driver {A} (c : command) (op : W → outcome A * W) :
  allowed (Cmd c) → respects R (driver c op).
Proof.
  intros Hc s r s'. unfold driver.
  destruct (op (browser s)) as [r' w'] eqn:E. intros [= <- <-].
  eapply frame_trans; [by apply frame_emit | apply frame_browser].
Qed.

Lemma respects_logger (lvl : level) (msg : string) :
  allowed (Log lvl msg) → respects R (logger lvl msg).
Proof. intros Hl s r s' [= <- <-]. by apply frame_emit. Qed.

Lemma respects_logger_exception (e : exn) (shown : list (string * string)) :
  allowed (LogException e shown) → respects R (logger_exception e shown).
Proof. intros Hl s r s' [= <- <-]. by apply frame_emit. Qed.

Lemma respects_time_sleep (secs : Q) :
  allowed (Sleep secs) → respects R (time_sleep secs).
Proof.
  intros Hs s r s'. unfold time_sleep.
  destruct (Qle_bool 0 secs); [|intros [= <- <-]; apply frame_refl].
  destruct (env_sleep secs (browser s)); intros [= <- <-].
  - eapply frame_trans; [by apply frame_emit | apply frame_browser].
  - by apply frame_emit.
Qed.

Lemma respects_path_exists (path : string) : respects R (path_exists path).
Proof. intros s r s' [= <- <-]. apply frame_refl. Qed.

Lemma respects_read_file (path : string) : respects R (read_file path).
Proof.
  intros s r s'. unfold read_file.
  destruct (fs s !! path); intros [= <- <-]; apply frame_refl.
Qed.

Lemma respects_read_initialized : respects R read_initialized.
Proof. intros s r s' [= <- <-]. apply frame_refl. Qed.

Lemma respects_write_file `{!FrameFs R} (path : string) (content : list Byte.byte) :
  respects R (write_file path content).
Proof.
  intros s r s'. unfold write_file.
  destruct (env_write path content (browser s)); intros [= <- <-];
    [apply frame_fs | apply frame_refl | apply frame_fs].
Qed.

Lemma respects_assign_initialized `{!FrameInit R} (b : bool) :
  respects R (assign_initialized b).
Proof. intros s r s' [= <- <-]. apply frame_init. Qed.

End Combinators.

#[local] Instance keeps_initialized_frame {W} :
  Frame (@keeps_initialized W) (fun _ => True).
Proof. split; unfold keeps_initialized; intros; simpl; congruence. Qed.

#[local] Instance keeps_initialized_fs {W} : FrameFs (@keeps_initialized W).
Proof. by intros s f. Qed.

#[local] Instance keeps_fs_frame {W} : Frame (@keeps_fs W) (fun _ => True).
Proof. split; unfold keeps_fs; intros; simpl; congruence. Qed.

#[local] Instance keeps_fs_init {W} : FrameInit (@keeps_fs W).
Proof. by intros s b. Qed.

#[local] Instance quiet_for_frame {W} (P : event → bool) :
  Frame (@quiet_for W P) (fun e => P e = false).
Proof.
  split; unfold quiet_for.
  - intros s. exists []. by rewrite app_nil_r.
  - intros s1 s2 s3 (evs & E1 & Q1) (evs' & E2 & Q2). exists (evs ++ evs').
    rewrite E2, E1, <- app_assoc, forallb_app, Q1, Q2. done.
  - intros s w. exists []. simpl. by rewrite app_nil_r.
  - intros s e He. exists [e]. simpl. by rewrite He.
Qed.

#[local] Instance quiet_for_fs {W} (P : event → bool) : FrameFs (@quiet_for W P).
Proof. intros s f. exists []. simpl. by rewrite app_nil_r. Qed.

#[local] Instance quiet_for_init {W} (P : event → bool) : FrameInit (@quiet_for W P).
Proof. intros s b. exists []. simpl. by rewrite app_nil_r. Qed.

Create HintDb methods discriminated.
#[local] Hint Unfold open_portal wait_login_page delay_input delay_loading
  find_element wait_clickable execute_script scroll_and_click enter_credentials
  click_login_button replay_cookie replay_item load_storage init is_logged
  new_storage update_storage login_submit login close exit detect_login_step
  exit_or_sleep_step on_error cycle : methods.

(** Decompose a [respects] goal along the structure of the program. *)
Ltac respects_step leaf :=
  lazymatch goal with
  | |- respects _ (bind _ _) => eapply respects_bind; [tc_solve | | intros ?]
  | |- respects _ (try_except _ _ _) => eapply respects_try_except; [tc_solve | | intros ?]
  | |- respects _ (for_each _ _) => eapply respects_for_each; [tc_solve | intros ?]
  | |- respects _ (ret _) => eapply respects_ret; tc_solve
  | |- respects _ (raise _) => eapply respects_raise; tc_solve
  | |- respects _ (lift _) => eapply respects_lift; tc_solve
  | |- respects _ (query _) => eapply respects_query; tc_solve
  | |- respects _ (driver _ _) => eapply respects_driver; [tc_solve | leaf]
  | |- respects _ (logger _ _) => eapply respects_logger; [tc_solve | leaf]
  | |- respects _ (logger_exception _ _) => eapply respects_logger_exception; [tc_solve | leaf]
  | |- respects _ (time_sleep _) => eapply respects_time_sleep; [tc_solve | leaf]
  | |- respects _ (path_exists _) => eapply respects_path_exists; tc_solve
  | |- respects _ (read_file _) => eapply respects_read_file; tc_solve
  | |- respects _ read_initialized => eapply respects_read_initialized; tc_solve
  | |- respects _ (write_file _ _) => eapply respects_write_file; tc_solve
  | |- respects _ (assign_initialized _) => eapply respects_assign_initialized; tc_solve
  | |- respects _ (if ?b then _ else _) => destruct b
  | |- respects _ (match ?x with _ => _ end) => destruct x
  end.

Ltac respects_using leaf := autounfold with methods; repeat respects_step leaf.

Ltac respects_auto := respects_using ltac:(done).

(** ** Programs whose first event is known *)

Section FirstEvent.
Context {W : Type} `{World W}.
Context (first : event) (P : event → bool).

Lemma starts_then_quiet (s1 s2 s3 : state W) :
  starts_with first P s1 s2 → quiet_for P s2 s3 → starts_with first P s1 s3.
Proof.
  intros (evs & E1 & Q1) (evs' & E2 & Q2). exists (evs ++ evs').
  rewrite E2, E1, <- app_assoc. simpl. by rewrite forallb_app, Q1, Q2.
Qed.

Lemma starts_bind {A B} (m : M W A) (f : A → M W B) :
  respects (starts_with first P) m → (∀ a, respects (quiet_for P) (f a)) →
  respects (starts_with first P) (bind m f).
Proof.
  intros Hm Hf s r s'. unfold bind.
  destruct (m s) as [[a|e] s1] eqn:E; intros E'.
  - eapply starts_then_quiet; [by eapply Hm | by eapply Hf].
  - injection E' as <- <-. by eapply Hm.
Qed.

Lemma starts_try_except {A} (body : M W A) catches (handler : exn → M W A) :
  respects (starts_with first P) body → (∀ e, respects (quiet_for P) (handler e)) →
  respects (starts_with first P) (try_except body catches handler).
Proof.
  intros Hb Hh s r s'. unfold try_except.
  destruct (body s) as [[a|e] s1] eqn:E; intros E'.
  - injection E' as <- <-. by eapply Hb.
  - destruct (catches e).
    + eapply starts_then_quiet; [by eapply Hb | by eapply Hh].
    + injection E' as <- <-. by eapply Hb.
Qed.

End FirstEvent.

Lemma starts_driver {W} `{World W} {A} (P : event → bool) (c : command)
    (op : W → outcome A * W) :
  respects (starts_with (Cmd c) P) (driver c op).
Proof.
  intros s r s'. unfold driver. destruct (op (browser s)) as [r' w'].
  intros [= <- <-]. by exists [].
Qed.

Lemma starts_logger {W} (P : event → bool) (lvl : level) (msg : string) :
  respects (starts_with (Log lvl msg) P) (@logger W lvl msg).
Proof. intros s r s' [= <- <-]. by exists []. Qed.

#[local] Arguments startswith : simpl never.
#[local] Arguments str_in : simpl never.
#[local] Arguments any_keyword_in : simpl never.

Section Verification.
Context {W : Type} `{World W}.

Variable urlparse_fragment : string -> outcome string.
Variable json_dumps : pyval -> string.
Variable pickle_dumps : ATrustLoginStorage -> list Byte.byte.
Variable pickle_loads : list Byte.byte -> outcome ATrustLoginStorage.
Variable self : ATrustLogin.

Local Abbreviation is_logged' := (is_logged urlparse_fragment self).
Local Abbreviation load_storage' := (load_storage json_dumps pickle_loads self).
Local Abbreviation update_storage' := (update_storage pickle_dumps self).
Local Abbreviation init' := (init json_dumps pickle_loads self).
Local Abbreviation login_submit' := (login_submit urlparse_fragment pickle_dumps self).
Local Abbreviation login' :=
  (login urlparse_fragment json_dumps pickle_dumps pickle_loads self).

(** ** Login-state detection *)

(** Detection only reads the browser. *)
Lemma is_logged_reads_only (s : state W) : snd (is_logged' s) = s.
Proof.
  unfold is_logged, bind, query, lift, ret.
  repeat (match goal with
          | |- context [match ?x with _ => _ end] => destruct x eqn:?
          end; simpl; try done).
Qed.

Lemma is_logged_state (s s' : state W) (r : outcome (option bool)) :
  is_logged' s = (r, s') → s' = s.
Proof. intros E. pose proof (is_logged_reads_only s) as R. by rewrite E in R. Qed.

(** C1. Detection follows the ordered, first-match-wins rules: on a URL
    beginning with [about:] the answer is [None] (indeterminate); else, if
    the fragment contains a must-be-logged keyword, it is [True] whatever
    the page shows; else, if it contains a must-not-logged keyword, it is
    [False] whatever the page shows; else it is [True] exactly when the page
    contains the workspace marker and not the local-password marker, and
    [False] otherwise. *)
Theorem is_logged_first_match (s : state W) (url : string) :
  drv_current_url (browser s) = Ok url →
  (has_prefix "about:" url → is_logged' s = (Ok None, s)) ∧
  (¬ has_prefix "about:" url →
   ∀ fragment, urlparse_fragment url = Ok fragment →
     let must := some_keyword_in (must_be_logged_keywords self) fragment in
     let must_not := some_keyword_in (must_not_logged_keywords self) fragment in
     (must → is_logged' s = (Ok (Some true), s)) ∧
     (¬ must → must_not → is_logged' s = (Ok (Some false), s)) ∧
     (¬ must → ¬ must_not →
      ∀ page, drv_page_source (browser s) = Ok page →
        ∃ b : bool,
          is_logged' s = (Ok (Some b), s) ∧
          (b = true ↔
           occurs_in workspace_marker page ∧ ¬ occurs_in local_password_marker page))).
Proof.
  intros Hurl. split.
  - intros Hp%startswith_spec.
    unfold is_logged, bind, query. by rewrite Hurl, Hp.
  - intros Hnp fragment Hfrag must must_not.
    assert (startswith "about:" url = false) as Hs.
    { destruct (startswith "about:" url) eqn:E; [|done]. by apply startswith_spec in E. }
    unfold is_logged, bind, query, lift, ret.
    rewrite Hurl; simpl. rewrite Hs, Hurl; simpl. rewrite Hfrag; simpl.
    split; [|split].
    + intros Hm%any_keyword_in_spec. by rewrite Hm.
    + intros Hm%any_keyword_in_false Hn%any_keyword_in_spec. by rewrite Hm, Hn.
    + intros Hm%any_keyword_in_false Hn%any_keyword_in_false page Hpage.
      rewrite Hm, Hn, Hpage; simpl.
      destruct (str_in workspace_marker page) eqn:Ew.
      * exists (negb (str_in local_password_marker page)). split; [by rewrite Hpage|].
        rewrite negb_true_iff, <- not_true_iff_false, !str_in_spec.
        apply str_in_spec in Ew. tauto.
      * exists false. split; [done|].
        split; [done | intros [Hw%str_in_spec _]; congruence].
Qed.

(** ** What the methods leave alone *)

Lemma open_portal_keeps_initialized : respects keeps_initialized (open_portal self).
Proof. respects_auto. Qed.

Lemma load_storage_keeps_initialized : respects keeps_initialized load_storage'.
Proof. respects_auto. Qed.

Lemma login_submit_keeps_initialized (u p : string) :
  respects keeps_initialized (login_submit' u p).
Proof. respects_auto. Qed.

Lemma init_no_submit : respects (quiet_for is_submit_start) init'.
Proof. respects_auto. Qed.

Lemma wait_login_page_keeps_initialized : respects keeps_initialized (@wait_login_page W _).
Proof. respects_auto. Qed.

Lemma delay_loading_keeps_initialized : respects keeps_initialized (delay_loading self).
Proof. respects_auto. Qed.

(** ** Initialisation *)

(** C10. The flag is assigned last: from an uninitialised object, [init]
    returns only after navigation, page-ready wait, settle delay and storage
    restore have all completed, and then the flag is [True]; if a step
    raises, the flag is still [False] and the next [init] runs the whole
    sequence again from the navigation. *)
Theorem init_flag_set_last (s : state W) :
  initialized s = false →
  ∀ r s', init' s = (r, s') →
    match r with
    | Ok _ =>
        ∃ s4, (open_portal self ;; wait_login_page ;; delay_loading self ;;
               load_storage') s = (Ok tt, s4) ∧
              s' = set_initialized true s4 ∧ initialized s' = true
    | Raised e =>
        initialized s' = false ∧
        init' s' = (open_portal self ;; wait_login_page ;; delay_loading self ;;
                    load_storage' ;; assign_initialized true) s'
    end.
Proof.
  intros Hinit r s'.
  assert (∀ t, initialized t = false →
    init' t = (open_portal self ;; wait_login_page ;; delay_loading self ;;
               load_storage' ;; assign_initialized true) t) as Hrun.
  { intros t Ht. unfold init at 1, bind at 1, read_initialized. by rewrite Ht. }
  rewrite (Hrun s Hinit). unfold bind.
  destruct (open_portal self s) as [[[]|e1] s1] eqn:E1.
  2: { intros [= <- <-]. apply open_portal_keeps_initialized in E1.
       unfold keeps_initialized in E1. split; [congruence | apply Hrun; congruence]. }
  apply open_portal_keeps_initialized in E1 as K1.
  destruct (wait_login_page s1) as [[[]|e2] s2] eqn:E2.
  2: { intros [= <- <-]. apply wait_login_page_keeps_initialized in E2.
       unfold keeps_initialized in *. split; [congruence | apply Hrun; congruence]. }
  apply wait_login_page_keeps_initialized in E2 as K2.
  destruct (delay_loading self s2) as [[[]|e3] s3] eqn:E3.
  2: { intros [= <- <-]. apply delay_loading_keeps_initialized in E3.
       unfold keeps_initialized in *. split; [congruence | apply Hrun; congruence]. }
  apply delay_loading_keeps_initialized in E3 as K3.
  destruct (load_storage' s3) as [[[]|e4] s4] eqn:E4.
  2: { intros [= <- <-]. apply load_storage_keeps_initialized in E4.
       unfold keeps_initialized in *. split; [congruence | apply Hrun; congruence]. }
  intros [= <- <-]. exists s4. done.
Qed.

(** ** The keepalive loop and startup *)

Variables username password : string.
Variable keepalive : Q.

Local Abbreviation detect_login_step' :=
  (detect_login_step urlparse_fragment json_dumps pickle_dumps pickle_loads self
     username password).
Local Abbreviation exit_or_sleep_step' := (exit_or_sleep_step self keepalive).
Local Abbreviation cycle' :=
  (cycle urlparse_fragment json_dumps pickle_dumps pickle_loads self
     username password keepalive).
Local Abbreviation keepalive_loop' :=
  (keepalive_loop urlparse_fragment json_dumps pickle_dumps pickle_loads self
     username password keepalive).
Local Abbreviation main' :=
  (main urlparse_fragment json_dumps pickle_dumps pickle_loads self
     username password keepalive).

(** The steps of [init] that come before the storage restore. *)
Local Abbreviation navigate_and_settle :=
  (open_portal self ;; wait_login_page ;; delay_loading self).

Lemma navigate_and_settle_keeps_fs : respects keeps_fs navigate_and_settle.
Proof. respects_auto. Qed.

Lemma navigate_and_settle_keeps_initialized :
  respects keeps_initialized navigate_and_settle.
Proof. respects_auto. Qed.

(** [init] on an uninitialised object, once navigation has settled. *)
Lemma init_after_navigation (s s3 : state W) :
  initialized s = false →
  navigate_and_settle s = (Ok tt, s3) →
  init' s = (load_storage' ;; assign_initialized true) s3.
Proof.
  intros Hinit Hnav. unfold init at 1, bind at 1, read_initialized.
  rewrite Hinit. simpl. revert Hnav. unfold bind.
  destruct (open_portal self s) as [[[]|?] s1]; [|done].
  destruct (wait_login_page s1) as [[[]|?] s2]; [|done].
  destruct (delay_loading self s2) as [[[]|?] ?]; [|done].
  by intros [= ->].
Qed.

(** ** Restoring persisted storage *)

Lemma load_storage_absent (s : state W) :
  fs s !! storage_path self = None → load_storage' s = (Ok tt, s).
Proof.
  intros Hnone. unfold load_storage, try_except, bind, path_exists.
  rewrite bool_decide_eq_false_2; [done|]. rewrite Hnone. by intros [? ?].
Qed.

(** C6. With no artifact file at the storage path, [load_storage] returns
    normally without touching anything (no command is sent to the browser,
    so its cookies and local storage stay as they are), [init] completes
    and sets the flag, and [main] goes on into the keepalive loop. *)
Theorem missing_file_is_no_prior_session (s s3 : state W) (fuel : nat) :
  fs s !! storage_path self = None →
  load_storage' s = (Ok tt, s) ∧
  (initialized s = false →
   navigate_and_settle s = (Ok tt, s3) →
   init' s = (Ok tt, set_initialized true s3) ∧
   main' fuel s = keepalive_loop' fuel (set_initialized true s3)).
Proof.
  intros Hnone. split; [by apply load_storage_absent|].
  intros Hinit Hnav.
  assert (init' s = (Ok tt, set_initialized true s3)) as Hi.
  { rewrite (init_after_navigation s s3 Hinit Hnav). unfold bind.
    rewrite load_storage_absent; [done|].
    apply navigate_and_settle_keeps_fs in Hnav. unfold keeps_fs in Hnav.
    by rewrite Hnav. }
  split; [done|]. unfold main. by rewrite Hi.
Qed.

(** C7, as the code has it.  With an artifact file whose content does not
    decode, the decoding error is not handled: [load_storage] catches only
    [FileNotFoundError], so the error leaves [init] with the flag still
    [False] and nothing logged, and since [main] calls [init] outside the
    loop's handler the process terminates with that error. *)
Theorem corrupt_storage_aborts_startup (s s3 : state W) (fuel : nat)
    (content : list Byte.byte) (e : exn) :
  initialized s = false →
  navigate_and_settle s = (Ok tt, s3) →
  fs s !! storage_path self = Some content →
  pickle_loads content = Raised e →
  is_FileNotFoundError e = false →
  load_storage' s3 = (Raised e, s3) ∧
  init' s = (Raised e, s3) ∧
  initialized s3 = false ∧
  main' fuel s = (Terminated e, s3).
Proof.
  intros Hinit Hnav Hfile Hdec Hnf.
  assert (fs s3 !! storage_path self = Some content) as Hfile3.
  { apply navigate_and_settle_keeps_fs in Hnav. unfold keeps_fs in Hnav.
    by rewrite Hnav. }
  assert (load_storage' s3 = (Raised e, s3)) as Hload.
  { unfold load_storage, try_except, bind, path_exists, read_file, lift.
    rewrite bool_decide_eq_true_2 by (by rewrite Hfile3).
    rewrite Hfile3, Hdec. simpl. by rewrite Hnf. }
  assert (init' s = (Raised e, s3)) as Hi.
  { rewrite (init_after_navigation s s3 Hinit Hnav). unfold bind. by rewrite Hload. }
  split; [done|]. split; [done|]. split.
  - apply navigate_and_settle_keeps_initialized in Hnav.
    unfold keeps_initialized in Hnav. congruence.
  - unfold main. by rewrite Hi.
Qed.

(** ** Counting events *)

Lemma count_events_app (P : event → bool) (tr evs : list event) :
  count_events P (tr ++ evs) = count_events P tr + count_events P evs.
Proof. unfold count_events. by rewrite List.filter_app, length_app. Qed.

Lemma count_events_quiet (P : event → bool) (evs : list event) :
  forallb (fun e => negb (P e)) evs = true → count_events P evs = 0.
Proof.
  unfold count_events. induction evs as [|e evs IH]; [done|]. simpl.
  intros [He Hq]%andb_true_iff. apply negb_true_iff in He. rewrite He. by apply IH.
Qed.

Lemma quiet_for_count (P : event → bool) (s s' : state W) :
  quiet_for P s s' → count_events P (trace s') = count_events P (trace s).
Proof.
  intros (evs & -> & Hq). rewrite count_events_app, (count_events_quiet _ _ Hq). lia.
Qed.

(** ** One-shot mode *)

Lemma detect_login_step_no_quit : respects (quiet_for is_quit) detect_login_step'.
Proof. respects_auto. Qed.

(** C9. In one-shot mode ([keepalive <= 0]), once the detect/login step of
    a cycle (the first one in particular) has completed and the browser
    accepts the quit command, the cycle has closed the browser exactly once
    and raises [SystemExit 0]; the loop's handler does not catch it, so the
    process terminates with success status. *)
Theorem one_shot_closes_once_and_exits (s s1 : state W) (w2 : W) (fuel : nat) :
  (keepalive <= 0)%Q →
  detect_login_step' s = (Ok tt, s1) →
  drv_quit (browser s1) = (Ok tt, w2) →
  let s2 := set_browser w2 (emit (Cmd Quit) s1) in
  cycle' s = (Raised (SystemExit 0), s2) ∧
  keepalive_loop' (S fuel) s = (Terminated (SystemExit 0), s2) ∧
  quits (trace s2) = quits (trace s) + 1.
Proof.
  intros Hk%Qle_bool_iff Hstep Hquit s2.
  assert (cycle' s = (Raised (SystemExit 0), s2)) as Hc.
  { unfold cycle, try_except, bind. rewrite Hstep.
    unfold exit_or_sleep_step. rewrite Hk.
    unfold bind, close, driver. by rewrite Hquit. }
  split; [done|]. split.
  - simpl. by rewrite Hc.
  - apply detect_login_step_no_quit, quiet_for_count in Hstep.
    unfold quits, s2. simpl. rewrite count_events_app, Hstep. done.
Qed.

(** ** Errors inside a cycle *)







(** ** Login *)

Local Abbreviation switcher_lookup :=
  (Cmd (FindElement By_XPATH method_switcher_xpath)).

(** The submission sequence begins by looking up the login-method
    switcher, and issues that lookup only once. *)
Lemma login_submit_starts (P : event → bool) :
  (∀ e, e ≠ switcher_lookup → P e = false) →
  respects (starts_with switcher_lookup P) (login_submit' username password).
Proof.
  intros HP. unfold login_submit.
  eapply starts_bind; [|intros; respects_using ltac:(by apply HP)].
  unfold enter_credentials.
  eapply starts_bind; [|intros; respects_using ltac:(by apply HP)].
  eapply starts_try_except; [|intros; respects_auto].
  eapply starts_bind; [apply starts_driver | intros; respects_using ltac:(by apply HP)].
Qed.

Lemma is_submit_start_only (e : event) :
  e ≠ switcher_lookup → is_submit_start e = false.
Proof.
  destruct e as [| |[]|]; try done. destruct how; try done. simpl.
  intros Hne. apply String.eqb_neq. congruence.
Qed.

(** A first [init] that completes ran its four steps and then raised the
    flag. *)
Lemma init_first_run (s s' : state W) :
  initialized s = false →
  init' s = (Ok tt, s') →
  ∃ s4, (open_portal self ;; wait_login_page ;; delay_loading self ;;
         load_storage') s = (Ok tt, s4) ∧
        s' = set_initialized true s4.
Proof.
  intros Hinit. unfold init at 1, bind at 1, read_initialized.
  rewrite Hinit. simpl. unfold bind.
  destruct (open_portal self s) as [[[]|?] s1]; [|done].
  destruct (wait_login_page s1) as [[[]|?] s2]; [|done].
  destruct (delay_loading self s2) as [[[]|?] s3]; [|done].
  destruct (load_storage' s3) as [[[]|?] s4]; [|done].
  intros [= <-]. by exists s4.
Qed.

Lemma init_ok_initialized (s s0 : state W) :
  init' s = (Ok tt, s0) → initialized s0 = true.
Proof.
  destruct (initialized s) eqn:Hinit.
  - unfold init, bind, read_initialized. rewrite Hinit. simpl. by intros [= <-].
  - intros Hi. by destruct (init_first_run s s0 Hinit Hi) as (s4 & _ & ->).
Qed.

Lemma init_when_initialized (s : state W) :
  initialized s = true → init' s = (Ok tt, s).
Proof. intros Hinit. unfold init, bind, read_initialized. by rewrite Hinit. Qed.

Lemma login_ok_initialized (s s1 : state W) (r : option bool) :
  login' username password s = (Ok r, s1) → initialized s1 = true.
Proof.
  unfold login at 1, bind at 1.
  destruct (init' s) as [[[]|?] s0] eqn:Ei; [|done].
  apply init_ok_initialized in Ei. unfold bind at 1.
  destruct (is_logged' s0) as [[logged|?] s0'] eqn:El; [|done].
  apply is_logged_state in El as ->.
  destruct (truthy logged).
  - unfold bind, logger. by intros [= _ <-].
  - intros Hs%login_submit_keeps_initialized. unfold keeps_initialized in Hs. congruence.
Qed.

(** [login] once detection has answered. *)
Lemma login_after_detection (s s0 : state W) (logged : option bool) :
  init' s = (Ok tt, s0) →
  is_logged' s0 = (Ok logged, s0) →
  login' username password s =
    if truthy logged then (Ok (Some true), emit (Log INFO "Already logged in") s0)
    else login_submit' username password s0.
Proof.
  intros Hi Hl. unfold login at 1, bind at 1. rewrite Hi.
  unfold bind at 1. rewrite Hl. by destruct (truthy logged).
Qed.


Lemma returns_bind {A B} (Q : B → Prop) (m : M W A) (f : A → M W B) :
  (∀ a, returns_in Q (f a)) → returns_in Q (bind m f).
Proof.
  intros Hf s b s'. unfold bind. destruct (m s) as [[a|e] s1]; [|done].
  apply Hf.
Qed.

Lemma returns_ret {A} (Q : A → Prop) (a : A) : Q a → returns_in Q (@ret W A a).
Proof. by intros Ha s b s' [= <- _]. Qed.

Lemma login_returns_true_or_none :
  returns_in (fun r => r = Some true ∨ r = None) (login' username password).
Proof.
  unfold login, login_submit.
  repeat first
    [ apply returns_bind; intros ?
    | apply returns_ret; tauto
    | match goal with |- returns_in _ (if ?b then _ else _) => destruct b end ].
Qed.

(** C3, as the code has it.  [login] never returns [False]: it returns
    [True] or falls off its end, which returns [None].  In particular, when
    the detection made after the submission is indeterminate or logged-out,
    [login] returns [None], leaving the state as the detection found it
    (nothing is persisted). *)
Theorem login_failure_returns_none :
  (∀ (s s' : state W) (r : option bool),
     login' username password s = (Ok r, s') → r = Some true ∨ r = None) ∧
  (∀ (s s5 : state W) (logged : option bool),
     (enter_credentials self username password ;;
      delay_input self ;;
      click_login_button ;;
      logger INFO "Performed basic login action" ;;
      delay_loading self) s = (Ok tt, s5) →
     is_logged' s5 = (Ok logged, s5) →
     logged = None ∨ logged = Some false →
     login_submit' username password s = (Ok None, s5)).
Proof.
  split.
  - intros s s' r Hr. by apply login_returns_true_or_none in Hr.
  - intros s s5 logged Hseq Hl Hlogged.
    assert (truthy logged = false) as Ht by (by destruct Hlogged as [-> | ->]).
    revert Hseq. unfold login_submit, bind.
    destruct (enter_credentials self username password s) as [[[]|?] s1]; [|done].
    destruct (delay_input self s1) as [[[]|?] s2]; [|done].
    destruct (click_login_button s2) as [[[]|?] s3]; [|done].
    destruct (logger INFO "Performed basic login action" s3) as [[[]|?] s4]; [|done].
    destruct (delay_loading self s4) as [[[]|?] s5']; [|done].
    intros [= ->]. by rewrite Hl, Ht.
Qed.

(** C4. [login] short-circuits on a logged-in session: when detection
    answers [True] it returns [True] at once, having only logged a message.
    Hence a second call made after a successful first one, with the session
    still logged in, starts no submission: over both calls there is at most
    one submission attempt, and exactly one when the first call did not
    itself find the session logged in. *)
Theorem login_short_circuits_when_logged_in :
  (∀ s s0 : state W,
     init' s = (Ok tt, s0) →
     is_logged' s0 = (Ok (Some true), s0) →
     let s1 := emit (Log INFO "Already logged in") s0 in
     login' username password s = (Ok (Some true), s1) ∧
     submit_attempts (trace s1) = submit_attempts (trace s)) ∧
  (∀ s s1 : state W,
     login' username password s = (Ok (Some true), s1) →
     is_logged' s1 = (Ok (Some true), s1) →
     let s2 := emit (Log INFO "Already logged in") s1 in
     login' username password s1 = (Ok (Some true), s2) ∧
     (submit_attempts (trace s2) ≤ submit_attempts (trace s) + 1)%nat ∧
     (∀ s0 logged,
        init' s = (Ok tt, s0) →
        is_logged' s0 = (Ok logged, s0) →
        logged ≠ Some true →
        submit_attempts (trace s2) = submit_attempts (trace s) + 1)).
Proof.
  assert (∀ s s0 : state W,
     init' s = (Ok tt, s0) →
     is_logged' s0 = (Ok (Some true), s0) →
     let s1 := emit (Log INFO "Already logged in") s0 in
     login' username password s = (Ok (Some true), s1) ∧
     submit_attempts (trace s1) = submit_attempts (trace s)) as Hshort.
  { intros s s0 Hi Hl s1. split.
    - by rewrite (login_after_detection s s0 (Some true)).
    - apply init_no_submit, quiet_for_count in Hi.
      unfold submit_attempts, s1. simpl. rewrite count_events_app, Hi. unfold count_events. simpl. lia. }
  split; [done|].
  intros s s1 Hfirst Hl s2.
  pose proof (login_ok_initialized _ _ _ Hfirst) as Hinit1.
  destruct (Hshort s1 s1 (init_when_initialized s1 Hinit1) Hl) as [Hsecond Hcount].
  fold s2 in Hsecond, Hcount. split; [done|]. rewrite Hcount.
  revert Hfirst. unfold login at 1, bind at 1.
  destruct (init' s) as [[[]|?] s0] eqn:Ei; [|done].
  apply init_no_submit, quiet_for_count in Ei as Hc0. fold (submit_attempts (trace s0)) in Hc0.
  fold (submit_attempts (trace s)) in Hc0.
  unfold bind at 1.
  destruct (is_logged' s0) as [[logged|?] s0'] eqn:El; [|done].
  apply is_logged_state in El as Hs0. subst s0'.
  destruct (truthy logged) eqn:Ht.
  - unfold bind, logger. intros [= <-]. simpl. split.
    + unfold submit_attempts in *. rewrite count_events_app, Hc0.
      unfold count_events. simpl. lia.
    + intros s0' logged' [= <-]. rewrite El. intros [= <-].
      by destruct logged as [[]|].
  - intros Hsub. apply (login_submit_starts is_submit_start is_submit_start_only) in Hsub.
    destruct Hsub as (evs & Etr & Hq).
    assert (submit_attempts (trace s1) = submit_attempts (trace s) + 1) as Hone.
    { rewrite Etr. unfold submit_attempts in *.
      rewrite count_events_app, Hc0.
      change (switcher_lookup :: evs) with ([switcher_lookup] ++ evs).
      rewrite count_events_app, (count_events_quiet _ _ Hq).
      change (count_events is_submit_start [switcher_lookup]) with 1. lia. }
    split; [lia | intros; done].
Qed.

(** ** Saving and restoring the session artifacts *)

Lemma cookies_added_app (tr evs : list event) :
  cookies_added (tr ++ evs) = cookies_added tr ++ cookies_added evs.
Proof. apply omap_app. Qed.

Lemma scripts_run_app (tr evs : list event) :
  scripts_run (tr ++ evs) = scripts_run tr ++ scripts_run evs.
Proof. apply omap_app. Qed.

Lemma replay_cookies_trace (cs : list pydict) (t t' : state W) :
  for_each cs replay_cookie t = (Ok tt, t') →
  ∃ evs, trace t' = trace t ++ evs ∧ cookies_added evs = cs ∧ scripts_run evs = [] ∧
         forallb (fun e => negb (is_not_command e)) evs = true.
Proof.
  revert t. induction cs as [|c cs IH]; intros t; simpl.
  - intros [= <-]. exists []. by rewrite app_nil_r.
  - unfold bind at 1, replay_cookie at 1, bind at 1.
    destruct (dict_get "name" c) as [name|]; [|done]. simpl.
    unfold bind at 1, driver at 1.
    destruct (drv_delete_cookie name (browser t)) as [[[]|?] w1]; [|done].
    unfold driver at 1. simpl.
    destruct (drv_add_cookie c w1) as [[[]|?] w2]; [|done].
    intros (evs & Etr & Hc & Hs & Hq)%IH.
    exists (Cmd (DeleteCookie name) :: Cmd (AddCookie c) :: evs).
    rewrite Etr. simpl. rewrite <- !app_assoc. simpl.
    unfold cookies_added, scripts_run in *. simpl. by rewrite Hc, Hs.
Qed.

Lemma replay_items_trace (ls : pydict) (t t' : state W) :
  for_each ls (replay_item json_dumps) t = (Ok tt, t') →
  ∃ evs, trace t' = trace t ++ evs ∧ cookies_added evs = [] ∧
         scripts_run evs = map (set_item_of json_dumps) ls ∧
         forallb (fun e => negb (is_not_command e)) evs = true.
Proof.
  revert t. induction ls as [|item ls IH]; intros t; simpl.
  - intros [= <-]. exists []. by rewrite app_nil_r.
  - unfold bind at 1, replay_item at 1, bind at 1, execute_script at 1, driver at 1.
    destruct (drv_execute_script _ _ (browser t)) as [[?|?] w1]; [|done]. simpl.
    intros (evs & Etr & Hc & Hs & Hq)%IH.
    exists (Cmd (ExecuteScript (set_item_of json_dumps item) []) :: evs).
    rewrite Etr. simpl. rewrite <- !app_assoc. simpl.
    unfold cookies_added, scripts_run in *. simpl. by rewrite Hc, Hs.
Qed.

Lemma replay_cookies_commands (cs : list pydict) :
  respects (quiet_for is_not_command) (for_each cs (@replay_cookie W _)).
Proof. respects_auto. Qed.

Lemma replay_items_commands (ls : pydict) :
  respects (quiet_for is_not_command) (for_each ls (@replay_item W _ json_dumps)).
Proof. respects_auto. Qed.

Lemma last_of_commands (evs : list event) (lvl : level) (msg : string) :
  forallb (fun e => negb (is_not_command e)) evs = true →
  last evs ≠ Some (Log lvl msg).
Proof.
  induction evs as [|e evs IH] using rev_ind; [done|].
  rewrite forallb_app, last_snoc. simpl.
  intros [_ He]%andb_true_iff [= ->]. done.
Qed.

(** Saving then loading, for any serialisation that decodes what it
    encoded for the value saved, and a write that the disk completes. *)
Lemma save_then_load (s : state W) (cs : list pydict) (ls : pydict) (w1 w2 : W) :
  let data := mkStorage cs ls in
  drv_get_cookies (browser s) = (Ok cs, w1) →
  drv_execute_script read_local_storage_script [] w1 = (Ok (PyDict ls), w2) →
  env_write (storage_path self) (pickle_dumps data) w2 = Written →
  pickle_loads (pickle_dumps data) = Ok data →
  ∃ s1,
    update_storage' s = (Ok tt, s1) ∧
    fs s1 !! storage_path self = Some (pickle_dumps data) ∧
    ∀ t : state W,
      fs t !! storage_path self = Some (pickle_dumps data) →
      load_storage' t =
        try_except
          (for_each cs replay_cookie ;;
           for_each ls (replay_item json_dumps) ;;
           logger INFO "Loaded storage data")
          is_FileNotFoundError (fun _ => logger INFO "未找到存储的数据") t ∧
      ∀ r t', load_storage' t = (r, t') →
        ∃ evs, trace t' = trace t ++ evs ∧
          (last evs = Some (Log INFO "Loaded storage data") →
           r = Ok tt ∧ cookies_added evs = cs ∧
           scripts_run evs = map (set_item_of json_dumps) ls).
Proof.
  intros data Hcs Hls Hw Hrt.
  eexists. split; [|split].
  - unfold update_storage, bind, execute_script, driver. rewrite Hcs. simpl.
    rewrite Hls. simpl. unfold write_file. simpl. fold data. rewrite Hw. reflexivity.
  - simpl. apply lookup_insert_eq.
  - intros t Hfile.
    assert (load_storage' t =
      try_except
        (for_each cs replay_cookie ;;
         for_each ls (replay_item json_dumps) ;;
         logger INFO "Loaded storage data")
        is_FileNotFoundError (fun _ => logger INFO "未找到存储的数据") t) as Hload.
    { unfold load_storage, try_except. unfold bind at 1, path_exists.
      rewrite bool_decide_eq_true_2 by (by rewrite Hfile).
      unfold bind at 1, read_file. rewrite Hfile.
      unfold bind at 1, lift. by rewrite Hrt. }
    split; [done|]. intros r t'. rewrite Hload. unfold try_except, bind.
    destruct (for_each cs replay_cookie t) as [[[]|ea] ta] eqn:EA.
    + apply replay_cookies_trace in EA as (evsA & EtA & HcA & HsA & HqA).
      destruct (for_each ls (replay_item json_dumps) ta) as [[[]|eb] tb] eqn:EB.
      * apply replay_items_trace in EB as (evsB & EtB & HcB & HsB & HqB).
        unfold logger. intros [= <- <-].
        exists (evsA ++ evsB ++ [Log INFO "Loaded storage data"]).
        simpl. rewrite EtB, EtA, <- !app_assoc. split; [done|]. intros _.
        rewrite !cookies_added_app, !scripts_run_app, HcA, HcB, HsA, HsB.
        unfold cookies_added, scripts_run. simpl. by rewrite !app_nil_r.
      * apply replay_items_commands in EB as (evsB & EtB & HqB).
        destruct (is_FileNotFoundError eb).
        -- unfold logger. intros [= <- <-].
           exists (evsA ++ evsB ++ [Log INFO "未找到存储的数据"]).
           simpl. rewrite EtB, EtA, <- !app_assoc. split; [done|].
           by rewrite !app_assoc, last_snoc.
        -- intros [= <- <-]. exists (evsA ++ evsB).
           rewrite EtB, EtA, <- !app_assoc. split; [done|].
           intros Hlast. exfalso. revert Hlast. apply last_of_commands.
           by rewrite forallb_app, HqA, HqB.
    + apply replay_cookies_commands in EA as (evsA & EtA & HqA).
      destruct (is_FileNotFoundError ea).
      * unfold logger. intros [= <- <-].
        exists (evsA ++ [Log INFO "未找到存储的数据"]).
        simpl. rewrite EtA, <- !app_assoc. split; [done|].
        by rewrite last_snoc.
      * intros [= <- <-]. exists evsA. split; [done|].
        intros Hlast. exfalso. revert Hlast. by apply last_of_commands.
Qed.


(** ** Further properties: what the methods never do *)

#[local] Instance keeps_other_files_frame :
  Frame (@keeps_other_files W self) (fun _ => True).
Proof.
  split; unfold keeps_other_files; try done.
  intros s1 s2 s3 H12 H23 path Hne. by rewrite H23, H12.
Qed.

#[local] Instance keeps_other_files_init : FrameInit (@keeps_other_files W self).
Proof. by intros s b path Hne. Qed.

Lemma write_artifact_keeps_other_files (content : list Byte.byte) :
  respects (keeps_other_files self) (write_file (W:=W) (storage_path self) content).
Proof.
  intros s r s'. unfold write_file.
  destruct (env_write (storage_path self) content (browser s));
    intros [= <- <-] path Hne; simpl; try done; by rewrite lookup_insert_ne.
Qed.

(** A run of the loop, and of [main], keeps whatever each cycle and [init]
    keep. *)
Lemma keepalive_loop_respects (R : state W → state W → Prop) (allowed : event → Prop)
    `{!Frame R allowed} :
  respects R cycle' → ∀ fuel s, R s (snd (keepalive_loop' fuel s)).
Proof.
  intros Hc fuel. induction fuel as [|fuel IH]; intros s; simpl.
  - apply frame_refl.
  - destruct (cycle' s) as [[[]|e] s1] eqn:E; apply Hc in E.
    + eapply frame_trans; [exact E | apply IH].
    + exact E.
Qed.

Lemma main_respects (R : state W → state W → Prop) (allowed : event → Prop)
    `{!Frame R allowed} :
  respects R init' → respects R cycle' → ∀ fuel s, R s (snd (main' fuel s)).
Proof.
  intros Hi Hc fuel s. unfold main.
  destruct (init' s) as [[[]|e] s1] eqn:E; apply Hi in E.
  - eapply frame_trans; [exact E | by eapply keepalive_loop_respects].
  - exact E.
Qed.

Lemma bind_inv {A B} (m : M W A) (f : A → M W B) (s s' : state W) (r : outcome B) :
  bind m f s = (r, s') →
  (∃ a s1, m s = (Ok a, s1) ∧ f a s1 = (r, s')) ∨
  (∃ e, m s = (Raised e, s') ∧ r = Raised e).
Proof.
  unfold bind. destruct (m s) as [[a|e] s1].
  - intros Hf. left. by exists a, s1.
  - intros [= <- <-]. right. by exists e.
Qed.

(** X1. Detection never acts: whatever [is_logged] returns or raises, it
    leaves the browser, the files, the flag and the trace as they were (it
    sends no command and logs nothing).  And it raises nothing of its own:
    an error out of [is_logged] is the error of reading the URL, of parsing
    it, or of reading the page. *)
Theorem detection_never_acts (s : state W) :
  snd (is_logged' s) = s ∧
  ∀ e, fst (is_logged' s) = Raised e →
       drv_current_url (browser s) = Raised e ∨
       (∃ url, drv_current_url (browser s) = Ok url ∧
               urlparse_fragment url = Raised e) ∨
       drv_page_source (browser s) = Raised e.
Proof.
  split; [apply is_logged_reads_only|].
  intros e. unfold is_logged, bind, query, lift, ret.
  destruct (drv_current_url (browser s)) as [url|e0] eqn:Eu; simpl;
    [|intros [= ->]; by left].
  destruct (startswith "about:" url); [done|]. rewrite Eu. simpl.
  destruct (urlparse_fragment url) as [fragment|e1] eqn:Ef; simpl;
    [|intros [= ->]; right; left; by exists url].
  destruct (any_keyword_in (must_be_logged_keywords self) fragment); [done|].
  destruct (any_keyword_in (must_not_logged_keywords self) fragment); [done|].
  destruct (drv_page_source (browser s)) as [page|e2] eqn:Ep; simpl;
    [|intros [= ->]; by right; right].
  destruct (str_in workspace_marker page); [|done]. rewrite Ep. done.
Qed.

(** X2. [init] is idempotent: running it twice in a row does what running
    it once does, because a successful [init] leaves the flag up and an
    [init] with the flag up is a no-op. *)
Theorem init_is_idempotent (s : state W) :
  (init' ;; init') s = init' s ∧
  (initialized s = true → init' s = (Ok tt, s)).
Proof.
  split; [|apply init_when_initialized].
  unfold bind. destruct (init' s) as [[[]|e] s1] eqn:E; [|done].
  apply init_when_initialized. by eapply init_ok_initialized.
Qed.

Lemma update_storage_cases (s s' : state W) (r : outcome unit) :
  update_storage' s = (r, s') →
  match r with
  | Ok _ =>
      ∃ cs ls w1 w2,
        drv_get_cookies (browser s) = (Ok cs, w1) ∧
        drv_execute_script read_local_storage_script [] w1 = (Ok (PyDict ls), w2) ∧
        env_write (storage_path self) (pickle_dumps (mkStorage cs ls)) w2 = Written ∧
        fs s' = <[storage_path self := pickle_dumps (mkStorage cs ls)]> (fs s)
  | Raised e =>
      fs s' = fs s ∨
      ∃ cs ls w1 w2 written,
        drv_get_cookies (browser s) = (Ok cs, w1) ∧
        drv_execute_script read_local_storage_script [] w1 = (Ok (PyDict ls), w2) ∧
        env_write (storage_path self) (pickle_dumps (mkStorage cs ls)) w2 =
          WriteFailed written e ∧
        fs s' = <[storage_path self :=
                    take written (pickle_dumps (mkStorage cs ls))]> (fs s)
  end.
Proof.
  unfold update_storage, bind, execute_script, driver.
  destruct (drv_get_cookies (browser s)) as [[cs|e] w1] eqn:Ec; simpl;
    [|intros [= <- <-]; by left].
  destruct (drv_execute_script read_local_storage_script [] w1) as [[ls|e] w2] eqn:El;
    simpl; [|intros [= <- <-]; by left].
  destruct ls; simpl; try (intros [= <- <-]; by left).
  unfold write_file. simpl.
  destruct (env_write (storage_path self) (pickle_dumps (mkStorage cs d)) w2)
    as [|e|written e] eqn:Ew; intros [= <- <-]; simpl.
  - by exists cs, d, w1, w2.
  - by left.
  - right. by exists cs, d, w1, w2, written.
Qed.

(** X3. Saving overwrites in place.  If capturing the artifacts fails (the
    cookie query raises, the local-storage script raises, or it returns
    something that is not a dict, which is a validation error),
    [update_storage] raises and every file is as before.  If it returns,
    the artifact file holds the serialisation of exactly the cookies and the
    local-storage dict the browser handed over.  If it raises while
    writing, either the [open] failed and the files are as before, or the
    file had already been truncated and holds only a prefix of the new
    serialisation: the artifacts stored before are lost.  No other file
    changes and the flag is never touched. *)
Theorem update_storage_overwrites_in_place (s : state W) :
  let r := fst (update_storage' s) in
  let s' := snd (update_storage' s) in
  initialized s' = initialized s ∧
  keeps_other_files self s s' ∧
  (∀ cs w1 v w2,
     drv_get_cookies (browser s) = (Ok cs, w1) →
     drv_execute_script read_local_storage_script [] w1 = (Ok v, w2) →
     (∀ d, v ≠ PyDict d) →
     r = Raised ValidationError ∧ fs s' = fs s) ∧
  match r with
  | Ok _ =>
      ∃ cs ls w1 w2,
        drv_get_cookies (browser s) = (Ok cs, w1) ∧
        drv_execute_script read_local_storage_script [] w1 = (Ok (PyDict ls), w2) ∧
        env_write (storage_path self) (pickle_dumps (mkStorage cs ls)) w2 = Written ∧
        fs s' = <[storage_path self := pickle_dumps (mkStorage cs ls)]> (fs s)
  | Raised e =>
      fs s' = fs s ∨
      ∃ cs ls w1 w2 written,
        drv_get_cookies (browser s) = (Ok cs, w1) ∧
        drv_execute_script read_local_storage_script [] w1 = (Ok (PyDict ls), w2) ∧
        env_write (storage_path self) (pickle_dumps (mkStorage cs ls)) w2 =
          WriteFailed written e ∧
        fs s' = <[storage_path self :=
                    take written (pickle_dumps (mkStorage cs ls))]> (fs s)
  end.
Proof.
  intros r s'. subst r s'.
  destruct (update_storage' s) as [r s'] eqn:E. simpl.
  split; [|split; [|split]].
  - assert (respects keeps_initialized update_storage') as Hk by respects_auto.
    by apply Hk in E.
  - assert (respects (keeps_other_files self) update_storage') as Hk.
    { respects_auto. apply write_artifact_keeps_other_files. }
    by apply Hk in E.
  - intros cs w1 v w2 Hc Hv Hnd. revert E.
    unfold update_storage, bind, execute_script, driver. rewrite Hc. simpl.
    rewrite Hv. simpl. destruct v; simpl; try (by intros [= <- <-]).
    by destruct (Hnd d).
  - by apply update_storage_cases.
Qed.

Lemma trace_grows {A} (m : M W A) (s s' : state W) (r : outcome A) :
  respects (quiet_for any_event) m → m s = (r, s') →
  ∃ evs, trace s' = trace s ++ evs.
Proof. intros Hm E. apply Hm in E as (evs & E & _). by exists evs. Qed.

Lemma login_submit_writes_after_success (s s' : state W) (r : outcome (option bool)) :
  login_submit' username password s = (r, s') →
  ∃ evs, trace s' = trace s ++ evs ∧
         (fs s' = fs s ∨ In (Log INFO "Login Success") evs).
Proof.
  assert (respects keeps_fs
            (enter_credentials self username password ;;
             delay_input self ;; click_login_button ;;
             logger INFO "Performed basic login action" ;; delay_loading self))
    as Hpre by respects_auto.
  assert (respects (quiet_for any_event)
            (enter_credentials self username password ;;
             delay_input self ;; click_login_button ;;
             logger INFO "Performed basic login action" ;; delay_loading self))
    as Hpre' by respects_auto.
  assert (login_submit' username password s =
    bind (enter_credentials self username password ;;
          delay_input self ;; click_login_button ;;
          logger INFO "Performed basic login action" ;; delay_loading self)
         (fun _ => logged <- is_logged' ;;
                   if truthy logged then
                     logger INFO "Login Success" ;; update_storage' ;; ret (Some true)
                   else ret None) s) as Hassoc.
  { unfold login_submit, bind.
    destruct (enter_credentials self username password s) as [[[]|?] s1]; [|done].
    destruct (delay_input self s1) as [[[]|?] s2]; [|done].
    destruct (click_login_button s2) as [[[]|?] s3]; [|done].
    destruct (logger INFO "Performed basic login action" s3) as [[[]|?] s4]; [|done].
    by destruct (delay_loading self s4) as [[[]|?] s5]. }
  rewrite Hassoc.
  intros [(? & s5 & E5 & Hrest) | (e & E5 & ->)]%bind_inv.
  2: { destruct (trace_grows _ _ _ _ Hpre' E5) as [evs Hevs].
       exists evs. split; [done|]. left. by apply Hpre in E5. }
  destruct (trace_grows _ _ _ _ Hpre' E5) as [evs5 Hevs5].
  apply Hpre in E5. unfold keeps_fs in E5.
  apply bind_inv in Hrest as [(logged & s6 & El & Hrest) | (e & El & ->)].
  2: { apply is_logged_state in El as ->. exists evs5. split; [done | by left]. }
  apply is_logged_state in El as ->.
  destruct (truthy logged).
  - assert (∃ evs, trace s' = trace (emit (Log INFO "Login Success") s5) ++ evs)
      as [evs Hevs].
    { apply bind_inv in Hrest as [(? & s7 & [= <- <-] & Hrest) | (e & [=] & _)].
      eapply (trace_grows (update_storage' ;; ret (Some true))); [|exact Hrest].
      respects_auto. }
    exists (evs5 ++ Log INFO "Login Success" :: evs). split.
    + rewrite Hevs. simpl. rewrite Hevs5, <- !app_assoc. done.
    + right. apply in_or_app. right. by left.
  - injection Hrest as <- <-. exists evs5. split; [done | by left].
Qed.

(** X4. [login] touches no file before it has seen the login succeed:
    in any run of [login], however it ends, unless the record "Login
    Success" was logged (the detection after the submission answered
    logged-in), the files are exactly as before the call. *)
Theorem login_writes_only_after_success (s : state W) :
  ∃ evs,
    trace (snd (login' username password s)) = trace s ++ evs ∧
    (¬ In (Log INFO "Login Success") evs →
     fs (snd (login' username password s)) = fs s).
Proof.
  destruct (login' username password s) as [r s'] eqn:E. simpl.
  assert (∃ evs, trace s' = trace s ++ evs ∧
                 (fs s' = fs s ∨ In (Log INFO "Login Success") evs))
    as (evs & Hevs & Hcases); [|exists evs; split; [done | tauto]].
  assert (respects keeps_fs init') as Hinit by respects_auto.
  assert (respects (quiet_for any_event) init') as Hinit' by respects_auto.
  apply bind_inv in E as [(? & s0 & Ei & Hrest) | (e & Ei & ->)].
  2: { destruct (trace_grows _ _ _ _ Hinit' Ei) as [evs Hevs].
       exists evs. split; [done|]. left. by apply Hinit in Ei. }
  destruct (trace_grows _ _ _ _ Hinit' Ei) as [evs0 Hevs0].
  apply Hinit in Ei. unfold keeps_fs in Ei.
  apply bind_inv in Hrest as [(logged & s1 & El & Hrest) | (e & El & ->)].
  2: { apply is_logged_state in El as ->. exists evs0. split; [done | by left]. }
  apply is_logged_state in El as ->.
  destruct (truthy logged).
  - apply bind_inv in Hrest as [(? & s2 & [= <- <-] & Hrest) | (e & [=] & _)].
    injection Hrest as <- <-. exists (evs0 ++ [Log INFO "Already logged in"]).
    simpl. rewrite Hevs0, <- app_assoc. split; [done | by left].
  - apply login_submit_writes_after_success in Hrest as (evs & Hevs & Hcases).
    exists (evs0 ++ evs). rewrite Hevs, Hevs0, <- app_assoc. split; [done|].
    destruct Hcases as [Hfs | Hin]; [left; congruence | right].
    apply in_or_app. by right.
Qed.

Lemma cycle_keeps_other_files : respects (keeps_other_files self) cycle'.
Proof. respects_auto; apply write_artifact_keeps_other_files. Qed.

Lemma init_keeps_fs : respects keeps_fs init'.
Proof. respects_auto. Qed.

(** X5. The program writes one file only: however long [main] runs and
    however it ends, every path other than the artifact file holds what it
    held at the start (and startup itself writes nothing at all). *)
Theorem only_the_artifact_file_is_written (fuel : nat) (s : state W) :
  keeps_other_files self s (snd (main' fuel s)) ∧
  fs (snd (init' s)) = fs s.
Proof.
  split.
  - eapply main_respects; [tc_solve | | apply cycle_keeps_other_files].
    intros t r t' E%init_keeps_fs path _. by rewrite E.
  - destruct (init' s) as [r s'] eqn:E. by apply init_keeps_fs in E.
Qed.

(** ** Further properties: counting what a run does *)

Lemma at_most_of_quiet (P : event → bool) (n : nat) (s s' : state W) :
  quiet_for P s s' → at_most P n s s'.
Proof.
  intros (evs & E & Hq). exists evs. split; [done|].
  rewrite (count_events_quiet _ _ Hq). lia.
Qed.

Lemma at_most_of_starts (first : event) (P : event → bool) (n : nat) (s s' : state W) :
  starts_with first P s s' → at_most P (S n) s s'.
Proof.
  intros (evs & E & Hq). exists (first :: evs). split; [done|].
  change (first :: evs) with ([first] ++ evs).
  rewrite count_events_app, (count_events_quiet _ _ Hq).
  unfold count_events. simpl. destruct (P first); simpl; lia.
Qed.

Lemma at_most_trans (P : event → bool) (n k : nat) (s1 s2 s3 : state W) :
  at_most P n s1 s2 → at_most P k s2 s3 → at_most P (n + k) s1 s3.
Proof.
  intros (evs & E1 & H1) (evs' & E2 & H2). exists (evs ++ evs').
  rewrite E2, E1, <- app_assoc, count_events_app. split; [done | lia].
Qed.

Lemma at_most_bind_l {A B} (P : event → bool) (n : nat) (m : M W A) (f : A → M W B) :
  respects (quiet_for P) m → (∀ a, respects (at_most P n) (f a)) →
  respects (at_most P n) (bind m f).
Proof.
  intros Hm Hf s r s' [(a & s1 & Em & Ef) | (e & Em & ->)]%bind_inv.
  - apply Hm in Em. apply Hf in Ef.
    apply (at_most_trans P 0 n s s1 s'); [by apply at_most_of_quiet | done].
  - apply at_most_of_quiet. by eapply Hm.
Qed.

Lemma at_most_bind_r {A B} (P : event → bool) (n : nat) (m : M W A) (f : A → M W B) :
  respects (at_most P n) m → (∀ a, respects (quiet_for P) (f a)) →
  respects (at_most P n) (bind m f).
Proof.
  intros Hm Hf s r s' [(a & s1 & Em & Ef) | (e & Em & ->)]%bind_inv.
  - apply Hm in Em. apply Hf in Ef.
    replace n with (n + 0) by lia.
    apply (at_most_trans P n 0 s s1 s'); [done | by apply at_most_of_quiet].
  - by eapply Hm.
Qed.

Lemma at_most_try_except {A} (P : event → bool) (n : nat) (body : M W A) catches
    (handler : exn → M W A) :
  respects (at_most P n) body → (∀ e, respects (quiet_for P) (handler e)) →
  respects (at_most P n) (try_except body catches handler).
Proof.
  intros Hb Hh s r s'. unfold try_except.
  destruct (body s) as [[a|e] s1] eqn:E.
  - intros [= <- <-]. by eapply Hb.
  - destruct (catches e).
    + intros Eh. apply Hb in E. apply Hh in Eh.
      replace n with (n + 0) by lia.
      apply (at_most_trans P n 0 s s1 s'); [done | by apply at_most_of_quiet].
    + intros [= <- <-]. by eapply Hb.
Qed.

Lemma at_most_respects_quiet {A} (P : event → bool) (n : nat) (m : M W A) :
  respects (quiet_for P) m → respects (at_most P n) m.
Proof. intros Hm s r s' E. apply at_most_of_quiet. by eapply Hm. Qed.

Lemma login_at_most_one :
  respects (at_most is_submit_start 1) (login' username password).
Proof.
  unfold login.
  apply at_most_bind_l; [apply init_no_submit | intros _].
  apply at_most_bind_l; [respects_auto | intros logged].
  destruct (truthy logged).
  - apply at_most_respects_quiet. respects_auto.
  - intros s r s' E. eapply at_most_of_starts.
    by eapply (login_submit_starts is_submit_start is_submit_start_only).
Qed.

Lemma cycle_at_most_one : respects (at_most is_submit_start 1) cycle'.
Proof.
  unfold cycle.
  apply at_most_try_except; [|intros e; respects_auto].
  apply at_most_bind_r; [|intros _; respects_auto].
  unfold detect_login_step.
  apply at_most_bind_l; [respects_auto | intros logged].
  destruct (negb (truthy logged)).
  - apply at_most_bind_l; [respects_auto | intros _].
    apply at_most_bind_l; [respects_auto | intros _].
    apply at_most_bind_l; [respects_auto | intros _].
    apply at_most_bind_r; [apply login_at_most_one | intros r; respects_auto].
  - apply at_most_respects_quiet. respects_auto.
Qed.

(** X6. Submissions are rationed: one call of [login] starts at most one
    submission, a keepalive cycle starts at most one, and a run of the loop
    starts at most as many as it has cycles, whatever the browser does and
    however the calls end. *)
Theorem at_most_one_submission_per_cycle (s : state W) :
  (submit_attempts (trace (snd (login' username password s)))
   ≤ submit_attempts (trace s) + 1)%nat ∧
  (submit_attempts (trace (snd (cycle' s))) ≤ submit_attempts (trace s) + 1)%nat ∧
  (∀ fuel,
     submit_attempts (trace (snd (keepalive_loop' fuel s)))
     ≤ submit_attempts (trace s) + fuel)%nat.
Proof.
  assert (∀ n (t t' : state W), at_most is_submit_start n t t' →
            (submit_attempts (trace t') ≤ submit_attempts (trace t) + n)%nat) as Hcount.
  { intros n t t' (evs & -> & Hn). unfold submit_attempts.
    rewrite count_events_app. lia. }
  split; [|split].
  - destruct (login' username password s) as [r s'] eqn:E.
    by apply Hcount, (login_at_most_one s r s').
  - destruct (cycle' s) as [r s'] eqn:E.
    by apply Hcount, (cycle_at_most_one s r s').
  - intros fuel. apply Hcount. revert s.
    induction fuel as [|fuel IH]; intros s; simpl.
    + exists []. rewrite app_nil_r. split; [done | unfold count_events; simpl; lia].
    + destruct (cycle' s) as [[[]|e] s1] eqn:E; apply cycle_at_most_one in E.
      * apply (at_most_trans _ 1 fuel s s1); [done | apply IH].
      * simpl. destruct E as (evs & Etr & Hn). exists evs. split; [done | lia].
Qed.

Lemma keepalive_positive (k : Q) : (0 < k)%Q → Qle_bool k 0 = false.
Proof.
  intros Hk. destruct (Qle_bool k 0) eqn:E; [|done].
  apply Qle_bool_iff in E. by apply Qlt_not_le in Hk.
Qed.

(** X7. In keepalive mode ([keepalive > 0]) the program never closes the
    browser: however long [main] runs and however it ends (an interrupt or
    a failed startup included), no quit command is issued. *)
Theorem keepalive_mode_never_quits (fuel : nat) (s : state W) :
  (0 < keepalive)%Q →
  quits (trace (snd (main' fuel s))) = quits (trace s).
Proof.
  intros Hk%keepalive_positive. apply quiet_for_count.
  eapply main_respects; [tc_solve | respects_auto |].
  unfold cycle, exit_or_sleep_step. rewrite Hk. respects_auto.
Qed.

(** X8. A startup that fails leaves the browser running: when [init]
    raises, [main] terminates with that error without having issued a quit
    command, in either mode. *)
Theorem failed_startup_leaves_browser_open (fuel : nat) (s : state W) (e : exn) :
  fst (init' s) = Raised e →
  fst (main' fuel s) = Terminated e ∧
  quits (trace (snd (main' fuel s))) = quits (trace s).
Proof.
  unfold main. destruct (init' s) as [[[]|e0] s1] eqn:E; simpl; [done|].
  intros [= ->]. split; [done|]. apply quiet_for_count.
  assert (respects (quiet_for is_quit) init') as Hq by respects_auto.
  by apply Hq in E.
Qed.

Lemma keys_sent_app (tr evs : list event) :
  keys_sent (tr ++ evs) = keys_sent tr ++ keys_sent evs.
Proof. apply omap_app. Qed.

Lemma keys_sent_quiet (evs : list event) :
  forallb (fun e => negb (is_send_keys e)) evs = true → keys_sent evs = [].
Proof.
  induction evs as [|e evs IH]; [done|].
  intros Hall. simpl in Hall. apply andb_true_iff in Hall as [He Hq].
  specialize (IH Hq).
  change (keys_sent (e :: evs)) with (keys_sent ([e] ++ evs)).
  rewrite keys_sent_app, IH, app_nil_r.
  by destruct e as [| |[]|].
Qed.

(** X9. A cycle that finds the session logged in does not log in again:
    it starts no submission, types nothing and writes no file. *)
Theorem logged_in_cycle_does_not_log_in (s : state W) :
  is_logged' s = (Ok (Some true), s) →
  let s' := snd (cycle' s) in
  submit_attempts (trace s') = submit_attempts (trace s) ∧
  keys_sent (trace s') = keys_sent (trace s) ∧
  fs s' = fs s.
Proof.
  intros Hl s'.
  assert (cycle' s = try_except exit_or_sleep_step' is_Exception (on_error self username password) s)
    as Hc.
  { unfold cycle, try_except, bind at 1, detect_login_step, bind at 1.
    by rewrite Hl. }
  subst s'. rewrite Hc.
  destruct (try_except exit_or_sleep_step' is_Exception (on_error self username password) s)
    as [r s'] eqn:E. simpl.
  assert (∀ P, respects (quiet_for P)
            (try_except exit_or_sleep_step' is_Exception (on_error self username password)) →
          quiet_for P s s') as Hquiet by (intros P HP; by apply HP in E).
  split; [|split].
  - apply quiet_for_count, Hquiet. respects_auto.
  - destruct (Hquiet is_send_keys) as (evs & -> & Hq); [respects_auto|].
    by rewrite keys_sent_app, (keys_sent_quiet _ Hq), app_nil_r.
  - assert (respects keeps_fs
              (try_except exit_or_sleep_step' is_Exception (on_error self username password)))
      as Hfs by respects_auto.
    by apply Hfs in E.
Qed.




(** ** Further properties: entering the credentials *)

Lemma driver_trace {A} (c : command) (op : W → outcome A * W) (s s' : state W)
    (r : outcome A) :
  driver c op s = (r, s') → trace s' = trace s ++ [Cmd c].
Proof. unfold driver. destruct (op (browser s)). by intros [= _ <-]. Qed.

Lemma time_sleep_ok_trace (secs : Q) (s s' : state W) :
  time_sleep secs s = (Ok tt, s') → trace s' = trace s ++ [Sleep secs].
Proof.
  unfold time_sleep. destruct (Qle_bool 0 secs); [|done].
  destruct (env_sleep secs (browser s)); [|done]. by intros [= <-].
Qed.

Lemma scroll_and_click_ok (el el' : element) (s s' : state W) :
  scroll_and_click el s = (Ok el', s') →
  el' = el ∧
  trace s' = trace s ++ [Cmd (ExecuteScript scroll_script [el]); Cmd (Click el)].
Proof.
  unfold scroll_and_click, execute_script.
  intros [(? & s1 & E1 & Hrest) | (? & _ & [=])]%bind_inv.
  apply bind_inv in Hrest as [(? & s2 & E2 & Hrest) | (? & _ & [=])].
  injection Hrest as <- <-.
  apply driver_trace in E1, E2. split; [done|].
  by rewrite E2, E1, <- app_assoc.
Qed.

(** The optional method-switcher step: a [try] whose bare [except] does
    nothing. *)
Local Abbreviation switcher_step :=
  (try_except
     (el <- find_element By_XPATH method_switcher_xpath ;;
      displayed <- driver (IsDisplayed el) (el_is_displayed el) ;;
      if displayed : bool
      then delay_input self ;; scroll_and_click el ;; ret tt
      else ret tt)
     (fun _ => true)
     (fun _ => ret tt)).

Lemma switcher_step_always_returns (P : event → bool) (s : state W) :
  (∀ e, e ≠ switcher_lookup → P e = false) →
  ∃ s1, switcher_step s = (Ok tt, s1) ∧ starts_with switcher_lookup P s s1.
Proof.
  intros HP.
  assert (respects (starts_with switcher_lookup P) switcher_step) as Hst.
  { eapply starts_try_except; [|intros; respects_auto].
    eapply starts_bind; [apply starts_driver | intros; respects_using ltac:(by apply HP)]. }
  destruct (switcher_step s) as [r s1] eqn:E. exists s1. split; [|by eapply Hst].
  revert E. unfold try_except.
  destruct (bind _ _ s) as [[[]|e] s0]; by intros [= <- <-].
Qed.

Lemma switcher_step_types_nothing (s s1 : state W) (r : outcome unit) :
  switcher_step s = (r, s1) → quiet_for is_send_keys s s1.
Proof.
  revert s r s1.
  change (respects (quiet_for is_send_keys) switcher_step). respects_auto.
Qed.

Lemma enter_credentials_ok_trace (s s' : state W) :
  enter_credentials self username password s = (Ok tt, s') →
  ∃ pre el_u el_p,
    keys_sent pre = [] ∧
    trace s' = trace s ++ pre ++
      [Cmd (WaitClickable By_ID "userName"); Cmd (FindElement By_ID "userName");
       Cmd (WaitClickable By_ID "password"); Cmd (FindElement By_ID "password");
       Cmd (ExecuteScript scroll_script [el_u]); Cmd (Click el_u);
       Sleep (input_delay self);
       Cmd (Clear el_u); Cmd (SendKeys el_u username);
       Cmd (ExecuteScript scroll_script [el_p]); Cmd (Click el_p);
       Sleep (input_delay self);
       Cmd (Clear el_p); Cmd (SendKeys el_p password);
       Log DEBUG "Filled username and password"] ∧
    (∃ w1 w2 w3 w4,
       drv_find_element By_ID "userName" w1 = (Ok el_u, w2) ∧
       drv_wait_clickable By_ID "password" w2 = (Ok tt, w3) ∧
       drv_find_element By_ID "password" w3 = (Ok el_p, w4)).
Proof.
  unfold enter_credentials.
  intros [([] & s0 & E0 & Hrest) | (? & _ & [=])]%bind_inv.
  apply switcher_step_types_nothing in E0 as (pre & E0 & Hpre).
  apply bind_inv in Hrest as [([] & s1 & E1 & Hrest) | (? & _ & [=])].
  apply bind_inv in Hrest as [(el_u & s2 & E2 & Hrest) | (? & _ & [=])].
  apply bind_inv in Hrest as [([] & s3 & E3 & Hrest) | (? & _ & [=])].
  apply bind_inv in Hrest as [(el_p & s4 & E4 & Hrest) | (? & _ & [=])].
  apply bind_inv in Hrest as [(? & s5 & E5 & Hrest) | (? & _ & [=])].
  apply bind_inv in Hrest as [([] & s6 & E6 & Hrest) | (? & _ & [=])].
  apply bind_inv in Hrest as [([] & s7 & E7 & Hrest) | (? & _ & [=])].
  apply bind_inv in Hrest as [([] & s8 & E8 & Hrest) | (? & _ & [=])].
  apply bind_inv in Hrest as [(? & s9 & E9 & Hrest) | (? & _ & [=])].
  apply bind_inv in Hrest as [([] & s10 & E10 & Hrest) | (? & _ & [=])].
  apply bind_inv in Hrest as [([] & s11 & E11 & Hrest) | (? & _ & [=])].
  apply bind_inv in Hrest as [([] & s12 & E12 & Hrest) | (? & _ & [=])].
  injection Hrest as <-.
  assert (∃ w1 w2 w3 w4,
            drv_find_element By_ID "userName" w1 = (Ok el_u, w2) ∧
            drv_wait_clickable By_ID "password" w2 = (Ok tt, w3) ∧
            drv_find_element By_ID "password" w3 = (Ok el_p, w4)) as Hfound.
  { pose proof E2 as E2'. pose proof E3 as E3'. pose proof E4 as E4'.
    unfold find_element, wait_clickable, driver in E2', E3', E4'.
    destruct (drv_find_element By_ID "userName" (browser s1)) as [r2 w2] eqn:F2.
    injection E2' as -> <-.
    simpl in E3'.
    destruct (drv_wait_clickable By_ID "password" w2) as [r3 w3] eqn:F3.
    injection E3' as -> <-.
    simpl in E4'.
    destruct (drv_find_element By_ID "password" w3) as [r4 w4] eqn:F4.
    injection E4' as -> <-.
    by exists (browser s1), w2, w3, w4. }
  apply driver_trace in E1, E2, E3, E4, E7, E8, E11, E12.
  apply scroll_and_click_ok in E5 as [_ E5], E9 as [_ E9].
  apply time_sleep_ok_trace in E6, E10.
  exists pre, el_u, el_p. split; [by apply keys_sent_quiet|]. split; [|done].
  simpl. rewrite E12, E11, E10, E9, E8, E7, E6, E5, E4, E3, E2, E1, E0.
  by rewrite <- !app_assoc.
Qed.



(** X12. The method-switcher step cannot stop the entry: whatever goes
    wrong in it (the element is missing, a command fails, even an
    interrupt or an exit request during its pause) is swallowed by the bare
    [except], and [enter_credentials] goes on to wait for the user-name
    field. *)
Theorem switcher_failure_is_swallowed (s : state W) :
  ∃ before after,
    trace (snd (enter_credentials self username password s)) =
      trace s ++ switcher_lookup :: before ++
      Cmd (WaitClickable By_ID "userName") :: after.
Proof.
  destruct (switcher_step_always_returns any_event s) as (s0 & E0 & pre & Epre & _);
    [done|].
  unfold enter_credentials, bind at 1. rewrite E0.
  unfold bind at 1, wait_clickable at 1.
  destruct (driver (WaitClickable By_ID "userName") _ s0) as [[[]|e] s1] eqn:E1;
    apply driver_trace in E1 as E1'.
  - match goal with |- context [snd (?k s1)] => destruct (k s1) as [r s'] eqn:Ek end.
    assert (quiet_for any_event s1 s') as (evs & Eevs & _).
    { revert Ek. generalize s1 r s'.
      match goal with |- ∀ t r t', ?k t = _ → _ =>
        change (respects (quiet_for any_event) k) end.
      respects_auto. }
    exists pre, evs. simpl. rewrite Eevs, E1', Epre. by rewrite <- !app_assoc.
  - exists pre, []. simpl. rewrite E1', Epre. by rewrite <- !app_assoc.
Qed.

Lemma existsb_quiet (P : event → bool) (evs : list event) :
  forallb (fun e => negb (P e)) evs = true → existsb P evs = false.
Proof.
  induction evs as [|e evs IH]; [done|]. simpl.
  intros [He Hq]%andb_true_iff. apply negb_true_iff in He. by rewrite He, IH.
Qed.

(** X13. The form is never submitted untyped: in any run of the
    submission sequence of [login], if the login button was looked up at
    all then both credentials have been typed before, the user name first
    and the password second, each exactly once, and nothing is typed
    afterwards. *)
Theorem login_button_only_after_typing (s : state W) :
  ∃ evs,
    trace (snd (login_submit' username password s)) = trace s ++ evs ∧
    (existsb is_login_button_lookup evs = true →
     ∃ el_u el_p, keys_sent evs = [(el_u, username); (el_p, password)]).
Proof.
  destruct (login_submit' username password s) as [r s'] eqn:E. simpl.
  apply bind_inv in E as [([] & s1 & E1 & Hrest) | (e & E1 & ->)].
  - apply enter_credentials_ok_trace in E1
      as (pre & el_u & el_p & Hpre & E1 & _).
    assert (quiet_for is_send_keys s1 s') as (evs & Eevs & Hq).
    { revert Hrest. generalize s1 r s'.
      match goal with |- ∀ t r t', ?k t = _ → _ =>
        change (respects (quiet_for is_send_keys) k) end.
      respects_auto. }
    eexists. split; [rewrite Eevs, E1, <- app_assoc; reflexivity|].
    intros _. exists el_u, el_p.
    rewrite !keys_sent_app, Hpre, (keys_sent_quiet _ Hq). done.
  - assert (quiet_for is_login_button_lookup s s') as (evs & Eevs & Hq).
    { revert E1. generalize s (Raised (A:=unit) e) s'.
      change (respects (quiet_for is_login_button_lookup)
                (enter_credentials self username password)).
      respects_auto. }
    exists evs. split; [done|]. by rewrite (existsb_quiet _ _ Hq).
Qed.

(** ** Further properties: restoring the artifacts *)

Lemma replay_cookies_exact (cs : list pydict) (t t' : state W) :
  for_each cs replay_cookie t = (Ok tt, t') →
  trace t' = trace t ++ replay_commands json_dumps (mkStorage cs []).
Proof.
  unfold replay_commands. simpl. rewrite app_nil_r.
  revert t. induction cs as [|c cs IH]; intros t; simpl.
  - intros [= <-]. by rewrite app_nil_r.
  - intros [([] & t1 & E1 & Hrest) | (? & _ & [=])]%bind_inv.
    apply IH in Hrest. revert E1. unfold replay_cookie.
    destruct (dict_get "name" c) as [name|]; [|done].
    intros [(? & t0 & [= <- <-] & E1) | (? & [=] & _)]%bind_inv.
    apply bind_inv in E1 as [([] & t2 & E2 & E3) | (? & _ & [=])].
    apply driver_trace in E2, E3. rewrite Hrest, E3, E2. by rewrite <- !app_assoc.
Qed.

Lemma replay_items_exact (ls : pydict) (t t' : state W) :
  for_each ls (replay_item json_dumps) t = (Ok tt, t') →
  trace t' = trace t ++
    map (fun item => Cmd (ExecuteScript (set_item_of json_dumps item) [])) ls.
Proof.
  revert t. induction ls as [|item ls IH]; intros t; simpl.
  - intros [= <-]. by rewrite app_nil_r.
  - intros [([] & t1 & E1 & Hrest) | (? & _ & [=])]%bind_inv.
    apply IH in Hrest. revert E1. unfold replay_item, execute_script.
    intros [(? & t0 & E1 & [= <-]) | (? & _ & [=])]%bind_inv.
    apply driver_trace in E1. rewrite Hrest, E1. by rewrite <- !app_assoc.
Qed.

(** [load_storage] on a file that decodes to [data]. *)
Lemma load_storage_decoded (t : state W) (content : list Byte.byte)
    (data : ATrustLoginStorage) :
  fs t !! storage_path self = Some content →
  pickle_loads content = Ok data →
  load_storage' t =
    try_except
      (for_each (cookies data) replay_cookie ;;
       for_each (local_storage data) (replay_item json_dumps) ;;
       logger INFO "Loaded storage data")
      is_FileNotFoundError (fun _ => logger INFO "未找到存储的数据") t.
Proof.
  intros Hfile Hdec. unfold load_storage, try_except. unfold bind at 1, path_exists.
  rewrite bool_decide_eq_true_2 by (by rewrite Hfile).
  unfold bind at 1, read_file. rewrite Hfile.
  unfold bind at 1, lift. by rewrite Hdec.
Qed.

(** X14. Restoring replaces, it does not pile up: a [load_storage] that
    reports "Loaded storage data" has issued, for each stored cookie in
    order, a deletion of the cookie of that name immediately followed by
    the addition of the stored cookie, and then one [setItem] script per
    stored local-storage entry, in order, and no other command. *)
Theorem restore_is_delete_then_add (t t' : state W) (r : outcome unit)
    (content : list Byte.byte) (data : ATrustLoginStorage) :
  fs t !! storage_path self = Some content →
  pickle_loads content = Ok data →
  load_storage' t = (r, t') →
  ∃ evs, trace t' = trace t ++ evs ∧
    (last evs = Some (Log INFO "Loaded storage data") →
     r = Ok tt ∧
     evs = replay_commands json_dumps data ++ [Log INFO "Loaded storage data"]).
Proof.
  intros Hfile Hdec. rewrite (load_storage_decoded t content data Hfile Hdec).
  unfold try_except, bind.
  destruct (for_each (cookies data) replay_cookie t) as [[[]|ea] ta] eqn:EA.
  - apply replay_cookies_exact in EA as EtA.
    apply replay_cookies_commands in EA as (evsA & EtA' & HqA).
    destruct (for_each (local_storage data) (replay_item json_dumps) ta)
      as [[[]|eb] tb] eqn:EB.
    + apply replay_items_exact in EB as EtB.
      unfold logger. intros [= <- <-]. eexists. split.
      * simpl. rewrite EtB, EtA, <- !app_assoc. reflexivity.
      * intros _. split; [done|]. unfold replay_commands. simpl.
        by rewrite app_nil_r, <- !app_assoc.
    + apply replay_items_commands in EB as (evsB & EtB & HqB).
      destruct (is_FileNotFoundError eb).
      * unfold logger. intros [= <- <-].
        exists (evsA ++ evsB ++ [Log INFO "未找到存储的数据"]).
        simpl. rewrite EtB, EtA', <- !app_assoc. split; [done|].
        by rewrite !app_assoc, last_snoc.
      * intros [= <- <-]. exists (evsA ++ evsB).
        rewrite EtB, EtA', <- !app_assoc. split; [done|].
        intros Hlast. exfalso. revert Hlast. apply last_of_commands.
        by rewrite forallb_app, HqA, HqB.
  - apply replay_cookies_commands in EA as (evsA & EtA & HqA).
    destruct (is_FileNotFoundError ea).
    + unfold logger. intros [= <- <-].
      exists (evsA ++ [Log INFO "未找到存储的数据"]).
      simpl. rewrite EtA, <- !app_assoc. split; [done|].
      by rewrite last_snoc.
    + intros [= <- <-]. exists evsA. split; [done|].
      intros Hlast. exfalso. revert Hlast. by apply last_of_commands.
Qed.

Lemma replay_cookies_missing_name (cs : list pydict) (c : pydict) (t t' : state W)
    (r : outcome unit) :
  In c cs → dict_get "name" c = None →
  for_each cs replay_cookie t = (r, t') → ∃ e, r = Raised e.
Proof.
  intros Hin Hname. revert t. induction cs as [|c0 cs IH]; intros t; [done|].
  simpl. intros [([] & t1 & E1 & Hrest) | (e & _ & ->)]%bind_inv; [|by exists e].
  destruct Hin as [-> | Hin]; [|by eapply IH].
  revert E1. unfold replay_cookie. rewrite Hname.
  by intros [(? & ? & [=] & _) | (? & _ & [=])]%bind_inv.
Qed.

(** X15. A stored cookie without a ['name'] key makes the restore fail: if
    any cookie of the stored artifacts lacks the key, [load_storage] never
    reports "Loaded storage data" and never reaches the local-storage
    entries; when it is the first cookie, [load_storage] raises
    [KeyError] at once, before any command is sent to the browser. *)
Theorem cookie_without_name_aborts_restore (t : state W) (content : list Byte.byte)
    (data : ATrustLoginStorage) (c : pydict) :
  fs t !! storage_path self = Some content →
  pickle_loads content = Ok data →
  In c (cookies data) →
  dict_get "name" c = None →
  (∃ evs, trace (snd (load_storage' t)) = trace t ++ evs ∧
          ¬ In (Log INFO "Loaded storage data") evs ∧
          scripts_run evs = []) ∧
  (head (cookies data) = Some c → load_storage' t = (Raised (KeyError "name"), t)).
Proof.
  intros Hfile Hdec Hin Hname.
  rewrite (load_storage_decoded t content data Hfile Hdec). split.
  - unfold try_except, bind.
    destruct (for_each (cookies data) replay_cookie t) as [[[]|ea] ta] eqn:EA.
    { by apply (replay_cookies_missing_name _ c) in EA as [e [=]]. }
    assert (respects (quiet_for (fun e => is_not_command e ||
              match e with Cmd (ExecuteScript _ _) => true | _ => false end))
              (for_each (cookies data) (@replay_cookie W _))) as Hq by respects_auto.
    apply Hq in EA as (evsA & EtA & HqA).
    assert (¬ In (Log INFO "Loaded storage data") evsA ∧ scripts_run evsA = [])
      as [HnoA HsA].
    { clear -HqA. induction evsA as [|e evs IH]; [by split; [intros []|]|].
      simpl in HqA. apply andb_true_iff in HqA as [He Hq].
      destruct (IH Hq) as [Hno Hs]. split.
      - intros [-> | Hin]; [done | by apply Hno].
      - change (scripts_run (e :: evs)) with (scripts_run ([e] ++ evs)).
        rewrite scripts_run_app, Hs, app_nil_r.
        by destruct e as [| |[]|]. }
    destruct (is_FileNotFoundError ea); simpl.
    + exists (evsA ++ [Log INFO "未找到存储的数据"]).
      rewrite EtA, <- app_assoc. split; [done|]. split.
      * intros [Hin' | [[=] | []]]%in_app_or. by apply HnoA.
      * by rewrite scripts_run_app, HsA.
    + by exists evsA.
  - intros Hhead. destruct (cookies data) as [|c0 cs]; [done|].
    injection Hhead as ->. unfold try_except, bind. simpl.
    unfold bind at 1, replay_cookie at 1, bind at 1. by rewrite Hname.
Qed.

(** X16. Storage is restored into the loaded portal page: a first [init]
    that completes has navigated to the portal, waited for the page to be
    ready and paused [loading_delay] before anything else, and whatever the
    restore then did involved no further navigation and no further
    pause. *)
Theorem init_navigates_before_restoring (s s' : state W) :
  initialized s = false →
  init' s = (Ok tt, s') →
  ∃ evs,
    trace s' = trace s ++
      [Cmd (Get (portal_address self)); Cmd WaitReady; Sleep (loading_delay self)] ++ evs ∧
    existsb is_navigation evs = false ∧
    existsb is_sleep evs = false.
Proof.
  intros Hinit Hi.
  destruct (init_first_run s s' Hinit Hi) as (s4 & Hsteps & ->).
  apply bind_inv in Hsteps as [([] & s1 & E1 & Hsteps) | (? & _ & [=])].
  apply bind_inv in Hsteps as [([] & s2 & E2 & Hsteps) | (? & _ & [=])].
  apply bind_inv in Hsteps as [([] & s3 & E3 & Hsteps) | (? & _ & [=])].
  apply driver_trace in E1, E2. apply time_sleep_ok_trace in E3.
  assert (respects (quiet_for (fun e => is_navigation e || is_sleep e)) load_storage')
    as Hq by respects_auto.
  apply Hq in Hsteps as (evs & E4 & Hevs).
  exists evs. simpl. rewrite E4, E3, E2, E1, <- !app_assoc. split; [done|].
  clear -Hevs. induction evs as [|e evs IH]; [done|].
  simpl in Hevs. apply andb_true_iff in Hevs as [He Hq].
  apply negb_true_iff, orb_false_iff in He as [Hn Hs].
  destruct (IH Hq) as [IHn IHs]. simpl. by rewrite Hn, Hs, IHn, IHs.
Qed.

End Verification.


(** * The start of [main] and the constructor *)

Section PreflightProperties.
Context {W : Type} `{World W}.
Variable sock_connect : string → Z → W → connect_outcome * W.
Variables (port : Z) (host : string) (loading_d : Q).

Local Abbreviation wait_for_port' := (wait_for_port sock_connect).
Local Abbreviation refused := (refused_attempts sock_connect host port loading_d).

(** One turn of the loop of [wait_for_port]. *)
Lemma wait_for_port_turn (fuel : nat) (s : state W) :
  wait_for_port' (S fuel) port host loading_d s =
  match sock_connect host port (browser s) with
  | (Connected, w1) =>
      (Some (Ok tt),
       mkState (initialized s) w1 (fs s)
         (trace s ++ [Log INFO (port_detected_message port)]))
  | (ConnectFailed e, w1) =>
      (Some (Raised e), mkState (initialized s) w1 (fs s) (trace s))
  | (_, w1) =>
      if Qle_bool 0 loading_d then
        match env_sleep loading_d w1 with
        | Some w2 =>
            wait_for_port' fuel port host loading_d
              (mkState (initialized s) w2 (fs s)
                 (trace s ++ [Log INFO (port_waiting_message port); Sleep loading_d]))
        | None =>
            (Some (Raised KeyboardInterrupt),
             mkState (initialized s) w1 (fs s)
               (trace s ++ [Log INFO (port_waiting_message port); Sleep loading_d]))
        end
      else
        (Some (Raised (ValueError "sleep length must be non-negative")),
         mkState (initialized s) w1 (fs s)
           (trace s ++ [Log INFO (port_waiting_message port)]))
  end.
Proof.
  simpl. destruct (sock_connect host port (browser s)) as [c w1].
  destruct c; try done;
    unfold bind, logger, time_sleep; simpl;
    destruct (Qle_bool 0 loading_d); try done;
    destruct (env_sleep loading_d w1); unfold set_browser, emit; simpl;
    by rewrite <- ?app_assoc.
Qed.

Lemma retry_events_snoc (n : nat) :
  [Log INFO (port_waiting_message port); Sleep loading_d] ++
    retry_events port loading_d n =
  retry_events port loading_d (S n).
Proof. done. Qed.

(** X17. [wait_for_port] returns exactly when a connection succeeds.  A
    call returns (given enough turns) if and only if some number [n] of
    connection attempts were refused or timed out, each followed by a
    completed pause of [loading_delay], and the next attempt connected;
    it has then logged "not yet being listened on" and slept once per
    failed attempt, logged the detection, and changed neither a file nor
    the flag. *)
Theorem wait_for_port_returns_after_connecting (fuel : nat) (s s' : state W) :
  wait_for_port' fuel port host loading_d s = (Some (Ok tt), s') ↔
  ∃ n wn w_end,
    (n < fuel)%nat ∧
    refused n (browser s) wn ∧
    sock_connect host port wn = (Connected, w_end) ∧
    (n = 0 ∨ Qle_bool 0 loading_d = true) ∧
    s' = mkState (initialized s) w_end (fs s)
           (trace s ++ retry_events port loading_d n ++
            [Log INFO (port_detected_message port)]).
Proof.
  split.
  - revert s. induction fuel as [|fuel IH]; intros s; [done|].
    rewrite wait_for_port_turn.
    destruct (sock_connect host port (browser s)) as [c w1] eqn:Ec.
    assert ((if Qle_bool 0 loading_d then
        match env_sleep loading_d w1 with
        | Some w2 =>
            wait_for_port' fuel port host loading_d
              (mkState (initialized s) w2 (fs s)
                 (trace s ++ [Log INFO (port_waiting_message port); Sleep loading_d]))
        | None =>
            (Some (Raised KeyboardInterrupt),
             mkState (initialized s) w1 (fs s)
               (trace s ++ [Log INFO (port_waiting_message port); Sleep loading_d]))
        end
      else
        (Some (Raised (ValueError "sleep length must be non-negative")),
         mkState (initialized s) w1 (fs s)
           (trace s ++ [Log INFO (port_waiting_message port)]))) = (Some (Ok tt), s') →
      (c = SocketTimeout ∨ c = ConnectionRefused) →
      ∃ n wn w_end,
        (n < S fuel)%nat ∧ refused n (browser s) wn ∧
        sock_connect host port wn = (Connected, w_end) ∧
        (n = 0 ∨ Qle_bool 0 loading_d = true) ∧
        s' = mkState (initialized s) w_end (fs s)
               (trace s ++ retry_events port loading_d n ++
                [Log INFO (port_detected_message port)])) as Hretry.
    { destruct (Qle_bool 0 loading_d) eqn:Ed; [|done].
      destruct (env_sleep loading_d w1) as [w2|] eqn:Es; [|done].
      intros (n & wn & w_end & Hn & Hr & Hc & _ & ->)%IH Hc0. simpl in *.
      exists (S n), wn, w_end. split; [lia|]. split.
      { by exists c, w1, w2. }
      split; [done|]. split; [by right|].
      by rewrite <- app_assoc. }
    destruct c.
    + intros [= <-]. exists 0, (browser s), w1. split; [lia|].
      split; [done|]. split; [done|]. split; [by left | done].
    + intros E. apply Hretry; [done | by left].
    + intros E. apply Hretry; [done | by right].
    + done.
  - intros (n & wn & w_end & Hn & Hr & Hc & Hd & ->).
    revert s fuel Hn Hr. induction n as [|n IH]; intros s fuel Hn Hr.
    + simpl in Hr. subst wn. destruct fuel as [|fuel]; [lia|].
      rewrite wait_for_port_turn, Hc. done.
    + destruct Hr as (c & w1 & w2 & Ec & Hc0 & Es & Hr).
      destruct Hd as [|Hd]; [done|].
      destruct fuel as [|fuel]; [lia|].
      rewrite wait_for_port_turn, Ec.
      assert (wait_for_port' fuel port host loading_d
                (mkState (initialized s) w2 (fs s)
                   (trace s ++ [Log INFO (port_waiting_message port); Sleep loading_d])) =
              (Some (Ok tt),
               mkState (initialized s) w_end (fs s)
                 (trace s ++ retry_events port loading_d (S n) ++
                  [Log INFO (port_detected_message port)]))) as Hgo.
      { rewrite (IH (or_intror Hd) _ fuel); [|lia|done]. simpl. by rewrite <- app_assoc. }
      rewrite Hd, Es. by destruct Hc0 as [-> | ->].
Qed.


End PreflightProperties.

(** X19. Which engine the constructor starts: Edge exactly when
    [driver_type] is the string ["edge"], or is unset on a system that
    reports ["Windows"]; every other value (["Edge"], ["firefox"], ...)
    silently starts Chrome.  The option and service classes always belong to
    the engine that is started. *)
Theorem edge_is_chosen_only_for_edge (driver_type : option string) (system : string) :
  let t := resolve_driver_type driver_type system in
  options_engine t = driver_engine t ∧
  (driver_engine t = Edge ↔
   driver_type = Some "edge" ∨ (driver_type = None ∧ system = "Windows")).
Proof.
  intros t. split; [done|]. subst t. unfold driver_engine, resolve_driver_type.
  destruct driver_type as [t|].
  - destruct (String.eqb_spec t "edge") as [-> | Hne].
    + split; [by left | done].
    + split; [done | intros [[= ?] | [[=] _]]; done].
  - destruct (String.eqb_spec system "Windows") as [-> | Hne]; simpl.
    + split; [by right | done].
    + split; [done | intros [[=] | [_ ?]]; done].
Qed.

(** * The artifact file *)

Section ArtifactFormat.
Import Toy.
Context {W : Type} `{World W}.
Variables (json_dumps : pyval → string) (self : ATrustLogin).

(** *** The byte format round-trips *)

Lemma str_app_cons (x : ascii) (a b : string) :
  (String x a ++ b)%string = String x (a ++ b).
Proof. reflexivity. Qed.

Lemma str_app_assoc (a b c : string) : ((a ++ b) ++ c = a ++ (b ++ c))%string.
Proof. induction a as [|x a IH]; [done|]. by rewrite !str_app_cons, IH. Qed.

Lemma str_app_nil_r (a : string) : (a ++ "")%string = a.
Proof. induction a as [|x a IH]; [done|]. by rewrite str_app_cons, IH. Qed.

Lemma str_length_app (a b : string) :
  String.length (a ++ b) = (String.length a + String.length b)%nat.
Proof. induction a as [|x a IH]; [done|]. rewrite str_app_cons. simpl. by rewrite IH. Qed.

Lemma substring_all (a : string) : String.substring 0 (String.length a) a = a.
Proof. induction a as [|x a IH]; simpl; [done | by rewrite IH]. Qed.

Lemma substring_head (a b : string) :
  String.substring 0 (String.length a) (a ++ b) = a.
Proof.
  induction a as [|x a IH]; [by destruct b|].
  rewrite str_app_cons. simpl. by rewrite IH.
Qed.

Lemma substring_tail (a b : string) :
  String.substring (String.length a) (String.length b) (a ++ b) = b.
Proof.
  induction a as [|x a IH]; [apply substring_all|].
  rewrite str_app_cons. simpl. done.
Qed.

Lemma take_str_app (a b : string) : take_str (String.length a) (a ++ b) = Some (a, b).
Proof.
  unfold take_str. rewrite str_length_app.
  replace (String.length a <=? String.length a + String.length b)%nat with true
    by (symmetry; apply Nat.leb_le; lia).
  replace (String.length a + String.length b - String.length a)%nat
    with (String.length b) by lia.
  by rewrite substring_head, substring_tail.
Qed.

(** A decimal numeral contains neither [;] nor [:]. *)
Lemma read_until_uint (stop : ascii) (d : Decimal.uint) (rest : string) :
  stop = ";"%char ∨ stop = ":"%char →
  read_until stop (NilEmpty.string_of_uint d ++ String stop rest) =
  Some (NilEmpty.string_of_uint d, rest).
Proof.
  intros Hstop. induction d as [|d IH|d IH|d IH|d IH|d IH|d IH|d IH|d IH|d IH|d IH];
    simpl; [by rewrite Ascii.eqb_refl|..];
    rewrite IH; by destruct Hstop as [-> | ->].
Qed.

Lemma read_until_uint0 (stop : ascii) (d : Decimal.uint) (rest : string) :
  stop = ";"%char ∨ stop = ":"%char →
  read_until stop (NilZero.string_of_uint d ++ String stop rest) =
  Some (NilZero.string_of_uint d, rest).
Proof.
  intros Hstop. destruct d; try (by apply (read_until_uint stop _ rest)).
  by destruct Hstop as [-> | ->].
Qed.

Lemma read_until_z2s (stop : ascii) (z : Z) (rest : string) :
  stop = ";"%char ∨ stop = ":"%char →
  read_until stop (z2s z ++ String stop rest) = Some (z2s z, rest).
Proof.
  intros Hstop. unfold z2s, NilZero.string_of_int.
  destruct (Z.to_int z) as [d|d]; [by apply read_until_uint0|].
  rewrite str_app_cons. cbn [read_until].
  rewrite read_until_uint0 by done. by destruct Hstop as [-> | ->].
Qed.

Lemma s2z_z2s (z : Z) : s2z (z2s z) = Some z.
Proof.
  unfold s2z, z2s. rewrite NilZero.isi.
  - simpl. by rewrite DecimalZ.of_to.
  - destruct z; simpl; [done | | done]. intros [= Hnil].
    by apply Unsigned.to_uint_nonnil in Hnil.
  - destruct z; simpl; [done | done |]. intros [= Hnil].
    by apply Unsigned.to_uint_nonnil in Hnil.
Qed.

Lemma s2n_n2s (n : nat) : s2n (n2s n) = Some n.
Proof.
  unfold s2n, n2s. rewrite s2z_z2s. simpl.
  replace (0 <=? Z.of_nat n)%Z with true by (symmetry; apply Z.leb_le; lia).
  by rewrite Nat2Z.id.
Qed.

Lemma enc_list (l : list pyval) :
  enc (PyList l) = ("L" ++ n2s (List.length l) ++ ":" ++ enc_items enc l)%string.
Proof. reflexivity. Qed.

Lemma enc_dict (d : pydict) :
  enc (PyDict d) = ("D" ++ n2s (List.length d) ++ ":" ++ enc_entries enc d)%string.
Proof. reflexivity. Qed.

Lemma dec_int (fuel : nat) (rest : string) :
  dec (S fuel) (String "I" rest) =
  ('(num, rest1) ← read_until ";" rest; z ← s2z num; Some (PyInt z, rest1)).
Proof. reflexivity. Qed.

Lemma dec_str (fuel : nat) (rest : string) :
  dec (S fuel) (String "S" rest) =
  ('(num, rest1) ← read_until ":" rest;
   n ← s2n num;
   '(body, rest2) ← take_str n rest1; Some (PyStr body, rest2)).
Proof. reflexivity. Qed.

Lemma dec_list (fuel : nat) (rest : string) :
  dec (S fuel) (String "L" rest) =
  ('(num, rest1) ← read_until ":" rest;
   n ← s2n num;
   '(l, rest2) ← dec_items (dec fuel) n rest1; Some (PyList l, rest2)).
Proof. reflexivity. Qed.

Lemma dec_dict (fuel : nat) (rest : string) :
  dec (S fuel) (String "D" rest) =
  ('(num, rest1) ← read_until ":" rest;
   n ← s2n num;
   '(d, rest2) ← dec_entries (dec fuel) n rest1; Some (PyDict d, rest2)).
Proof. reflexivity. Qed.

Lemma enc_nonempty (v : pyval) : (1 <= String.length (enc v))%nat.
Proof. destruct v as [ |[]| | | | ]; simpl; lia. Qed.

#[local] Arguments dec : simpl never.
#[local] Arguments enc : simpl never.

Lemma dec_enc_str (fuel : nat) (text rest : string) :
  dec (S fuel) (enc_str text ++ rest) = Some (PyStr text, rest).
Proof.
  assert ((enc_str text ++ rest)%string =
          String "S" (n2s (String.length text) ++ String ":" (text ++ rest))) as ->.
  { unfold enc_str. by rewrite !str_app_assoc. }
  rewrite dec_str. unfold n2s at 1. rewrite read_until_z2s by (by right). simpl.
  fold (n2s (String.length text)). rewrite s2n_n2s. simpl.
  by rewrite take_str_app.
Qed.

Lemma pyval_nested_ind (P : pyval → Prop) :
  P PyNone → (∀ b, P (PyBool b)) → (∀ z, P (PyInt z)) → (∀ s, P (PyStr s)) →
  (∀ l, Forall P l → P (PyList l)) →
  (∀ d, Forall (fun kv => P (snd kv)) d → P (PyDict d)) →
  ∀ v, P v.
Proof.
  intros HN HB HI HS HL HD. fix IH 1. intros [ |b|z|s|l|d].
  - exact HN.
  - apply HB.
  - apply HI.
  - apply HS.
  - apply HL. induction l as [|x l IHl]; constructor; [apply IH | exact IHl].
  - apply HD. induction d as [|[k x] d IHd]; constructor; [apply IH | exact IHd].
Qed.

(** Decoding undoes encoding, whatever follows, given fuel for the
    nesting. *)
Lemma dec_enc (v : pyval) :
  ∀ fuel rest, (String.length (enc v) <= fuel)%nat →
    dec fuel (enc v ++ rest) = Some (v, rest).
Proof.
  induction v as [ |b|z|text|l IHl|d IHd] using pyval_nested_ind; intros fuel rest Hfuel.
  - destruct fuel; [pose proof (enc_nonempty PyNone); exfalso; lia | done].
  - destruct fuel; [pose proof (enc_nonempty (PyBool b)); exfalso; lia | by destruct b].
  - destruct fuel; [pose proof (enc_nonempty (PyInt z)); exfalso; lia|].
    assert ((enc (PyInt z) ++ rest)%string = String "I" (z2s z ++ String ";" rest)) as ->.
    { change (enc (PyInt z)) with ("I" ++ z2s z ++ ";")%string.
      by rewrite !str_app_assoc. }
    rewrite dec_int, read_until_z2s by (by left). simpl. by rewrite s2z_z2s.
  - destruct fuel; [pose proof (enc_nonempty (PyStr text)); exfalso; lia|]. apply dec_enc_str.
  - destruct fuel as [|fuel]; [pose proof (enc_nonempty (PyList l)); exfalso; lia|].
    rewrite enc_list in Hfuel. rewrite !str_length_app in Hfuel.
    change (String.length "L") with 1%nat in Hfuel.
    assert (String.length (enc_items enc l) <= fuel)%nat as Hitems by lia.
    clear Hfuel.
    assert ((enc (PyList l) ++ rest)%string =
            String "L" (n2s (List.length l) ++ String ":" (enc_items enc l ++ rest))) as ->.
    { rewrite enc_list. by rewrite !str_app_assoc. }
    rewrite dec_list. unfold n2s at 1. rewrite read_until_z2s by (by right). simpl.
    fold (n2s (List.length l)). rewrite s2n_n2s. simpl.
    assert (dec_items (dec fuel) (List.length l) (enc_items enc l ++ rest) =
            Some (l, rest)) as ->; [|done].
    induction IHl as [|x l Hx _ IH]; [done|].
    change (enc_items enc (x :: l)) with (enc x ++ enc_items enc l)%string in *.
    rewrite str_length_app in Hitems.
    simpl. rewrite str_app_assoc, Hx by lia. simpl.
    rewrite IH by lia. done.
  - destruct fuel as [|fuel]; [pose proof (enc_nonempty (PyDict d)); exfalso; lia|].
    rewrite enc_dict in Hfuel. rewrite !str_length_app in Hfuel.
    change (String.length "D") with 1%nat in Hfuel.
    assert (String.length (enc_entries enc d) <= fuel)%nat as Hentries by lia.
    clear Hfuel.
    assert ((enc (PyDict d) ++ rest)%string =
            String "D" (n2s (List.length d) ++ String ":" (enc_entries enc d ++ rest))) as ->.
    { rewrite enc_dict. by rewrite !str_app_assoc. }
    rewrite dec_dict. unfold n2s at 1. rewrite read_until_z2s by (by right). simpl.
    fold (n2s (List.length d)). rewrite s2n_n2s. simpl.
    assert (dec_entries (dec fuel) (List.length d) (enc_entries enc d ++ rest) =
            Some (d, rest)) as ->; [|done].
    induction IHd as [|[k x] d Hx _ IH]; [done|]. simpl in Hx.
    change (enc_entries enc ((k, x) :: d))
      with (enc_str k ++ enc x ++ enc_entries enc d)%string in *.
    rewrite !str_length_app in Hentries.
    destruct fuel as [|fuel];
      [pose proof (enc_nonempty x); exfalso; lia|].
    simpl. rewrite str_app_assoc, dec_enc_str. simpl.
    rewrite str_app_assoc, Hx by lia. simpl.
    rewrite IH by lia. done.
Qed.

Lemma all_dicts_map (cs : list pydict) : all_dicts (map PyDict cs) = Some cs.
Proof. induction cs as [|c cs IH]; simpl; [done | by rewrite IH]. Qed.

(** Every value of [ATrustLoginStorage] is decoded from its encoding. *)
Lemma toy_loads_dumps (data : ATrustLoginStorage) : toy_loads (toy_dumps data) = Ok data.
Proof.
  assert (∀ v1 v2 n, (String.length (enc v1 ++ enc v2) < n)%nat →
                     dec n (enc v1 ++ enc v2) = Some (v1, enc v2)) as Hfirst.
  { intros v1 v2 n Hn. apply dec_enc. rewrite str_length_app in Hn. lia. }
  assert (∀ v1 v2 n, (String.length (enc v1 ++ enc v2) < n)%nat →
                     dec n (enc v2) = Some (v2, EmptyString)) as Hsecond.
  { intros v1 v2 n Hn. pose proof (dec_enc v2 n EmptyString) as Hdec.
    rewrite str_app_nil_r in Hdec. apply Hdec. rewrite str_length_app in Hn. lia. }
  destruct data as [cs ls]. unfold toy_loads, toy_dumps.
  rewrite string_of_list_byte_of_string. simpl cookies. simpl local_storage.
  change ("P" ++ ?a)%string with (String "P" a).
  cbv beta iota zeta. change (Ascii.eqb "P" "P") with true. cbv iota.
  rewrite Hfirst by (simpl; lia). simpl.
  rewrite (Hsecond (PyList (map PyDict cs))) by (simpl; lia). simpl.
  by rewrite all_dicts_map.
Qed.

(** C5. Saving the artifacts and loading them again reproduces them
    exactly, for every value of the artifacts: any list of cookies with
    whatever fields and any local-storage dict, the empty ones included.
    Whatever cookies [cs] and local-storage dict [ls] the browser hands
    over, when the write completes [update_storage] returns with the
    artifact file holding their serialisation, the serialisation decodes to
    exactly [cs] and [ls], and a [load_storage] that finds this file (in
    this or in a later process) behaves exactly as the replay of [cs] and
    [ls]: when it logs "Loaded storage data" it has added exactly the
    cookies [cs], in order, and set exactly the entries of [ls], in
    order. *)
Theorem storage_round_trip (s : state W) (cs : list pydict) (ls : pydict) (w1 w2 : W) :
  let data := mkStorage cs ls in
  drv_get_cookies (browser s) = (Ok cs, w1) →
  drv_execute_script read_local_storage_script [] w1 = (Ok (PyDict ls), w2) →
  env_write (storage_path self) (toy_dumps data) w2 = Written →
  toy_loads (toy_dumps data) = Ok data ∧
  ∃ s1,
    update_storage toy_dumps self s = (Ok tt, s1) ∧
    fs s1 !! storage_path self = Some (toy_dumps data) ∧
    ∀ t : state W,
      fs t !! storage_path self = Some (toy_dumps data) →
      load_storage json_dumps toy_loads self t =
        try_except
          (for_each cs replay_cookie ;;
           for_each ls (replay_item json_dumps) ;;
           logger INFO "Loaded storage data")
          is_FileNotFoundError (fun _ => logger INFO "未找到存储的数据") t ∧
      ∀ r t', load_storage json_dumps toy_loads self t = (r, t') →
        ∃ evs, trace t' = trace t ++ evs ∧
          (last evs = Some (Log INFO "Loaded storage data") →
           r = Ok tt ∧ cookies_added evs = cs ∧
           scripts_run evs = map (set_item_of json_dumps) ls).
Proof.
  intros data Hcs Hls Hw. split; [apply toy_loads_dumps|].
  apply (save_then_load json_dumps toy_dumps toy_loads self s cs ls w1 w2 Hcs Hls Hw).
  apply toy_loads_dumps.
Qed.

End ArtifactFormat.

(** * The properties on the simulated portal *)

Section OnThePortal.
Import Toy Scenario.

Local Abbreviation login_url := "https://portal.example/#/login".

(** Detection on the login form: rule 3 applies. *)
Lemma is_logged_first_match_witness :
  drv_current_url (browser s_ready) = Ok login_url ∧
  toy_is_logged s_ready = (Ok (Some false), s_ready).
Proof.
  split; [vm_compute; reflexivity|].
  destruct (is_logged_first_match toy_fragment at0 s_ready login_url)
    as [_ Hrules]; [vm_compute; reflexivity|].
  destruct (Hrules) with (fragment := "/login") as (_ & Hlogout & _).
  - intros Hp%startswith_spec. vm_compute in Hp. discriminate.
  - vm_compute; reflexivity.
  - apply Hlogout.
    + intros Hm%any_keyword_in_spec. vm_compute in Hm. discriminate.
    + apply any_keyword_in_spec. vm_compute. reflexivity.
Defined.

(** A navigation that times out leaves the flag down; the next [init]
    starts over and completes. *)
Lemma init_flag_set_last_witness :
  initialized s_glitch = false ∧
  toy_init s_glitch = (Raised TimeoutException, snd (toy_init s_glitch)) ∧
  initialized (snd (toy_init s_glitch)) = false ∧
  fst (toy_init (snd (toy_init s_glitch))) = Ok tt.
Proof.
  split; [reflexivity|]. split; [vm_compute; reflexivity|].
  destruct (init_flag_set_last toy_json toy_loads at0 s_glitch eq_refl
              (Raised TimeoutException) (snd (toy_init s_glitch)))
    as [Hdown _]; [vm_compute; reflexivity|].
  split; [exact Hdown | vm_compute; reflexivity].
Defined.

(** A fresh data directory: startup goes through. *)
Lemma missing_file_is_no_prior_session_witness :
  fs s_fresh !! storage_path at0 = None ∧
  initialized s_fresh = false ∧
  toy_load_storage s_fresh = (Ok tt, s_fresh) ∧
  toy_init s_fresh = (Ok tt, s_ready) ∧
  initialized s_ready = true.
Proof.
  split; [vm_compute; reflexivity|]. split; [reflexivity|].
  destruct (missing_file_is_no_prior_session toy_fragment toy_json toy_dumps toy_loads
              at0 "alice" "secret" 0 s_fresh
              (snd ((open_portal at0 ;; wait_login_page ;; delay_loading at0) s_fresh)) 1)
    as [Hload Hstart]; [vm_compute; reflexivity|].
  destruct Hstart as [Hinit _]; [reflexivity | vm_compute; reflexivity|].
  split; [exact Hload|]. split; [|vm_compute; reflexivity].
  unfold toy_init. rewrite Hinit. vm_compute. reflexivity.
Defined.

(** C7 fails on the code: with an artifact file that does not decode, the
    process terminates with the decoding error during startup; nothing was
    logged and the object never became initialised. *)
Lemma corrupt_storage_crashes_startup :
  toy_loads [Byte.x80; Byte.x04; Byte.xff] = Raised UnpicklingError ∧
  fst (run_main 0 "alice" "secret" 5 browser0 corrupt_files) = Terminated UnpicklingError ∧
  trace (snd (run_main 0 "alice" "secret" 5 browser0 corrupt_files)) =
    [Cmd (Get portal); Cmd WaitReady; Sleep 5] ∧
  initialized (snd (run_main 0 "alice" "secret" 5 browser0 corrupt_files)) = false.
Proof. vm_compute. repeat split; reflexivity. Qed.

Lemma corrupt_storage_aborts_startup_witness :
  initialized (fresh browser0 corrupt_files) = false ∧
  fs (fresh browser0 corrupt_files) !! storage_path at0 =
    Some [Byte.x80; Byte.x04; Byte.xff] ∧
  toy_loads [Byte.x80; Byte.x04; Byte.xff] = Raised UnpicklingError ∧
  fst (toy_init (fresh browser0 corrupt_files)) = Raised UnpicklingError ∧
  fst (run_main 0 "alice" "secret" 5 browser0 corrupt_files) = Terminated UnpicklingError.
Proof.
  split; [reflexivity|]. split; [vm_compute; reflexivity|].
  split; [vm_compute; reflexivity|].
  destruct (corrupt_storage_aborts_startup toy_fragment toy_json toy_dumps toy_loads
              at0 "alice" "secret" 0 (fresh browser0 corrupt_files)
              (snd ((open_portal at0 ;; wait_login_page ;; delay_loading at0)
                      (fresh browser0 corrupt_files)))
              5 [Byte.x80; Byte.x04; Byte.xff] UnpicklingError)
    as (_ & Hinit & _ & Hmain); try (vm_compute; reflexivity).
  split.
  - unfold toy_init. by rewrite Hinit.
  - unfold run_main. by rewrite Hmain.
Defined.

(** One-shot mode from the login form: one login, one quit, exit 0. *)
Lemma one_shot_closes_once_and_exits_witness :
  (0 <= 0)%Q ∧
  fst (toy_detect_login_step "alice" "secret" s_ready) = Ok tt ∧
  fst (toy_loop 0 "alice" "secret" 1 s_ready) = Terminated (SystemExit 0) ∧
  quits (trace (snd (toy_loop 0 "alice" "secret" 1 s_ready))) = 1.
Proof.
  split; [apply Qle_refl|]. split; [vm_compute; reflexivity|].
  pose (s1 := snd (toy_detect_login_step "alice" "secret" s_ready)).
  destruct (one_shot_closes_once_and_exits toy_fragment toy_json toy_dumps toy_loads
              at0 "alice" "secret" 0 s_ready s1 (snd (toy_quit (browser s1))) 0)
    as (_ & Hloop & Hquits);
    [apply Qle_refl | vm_compute; reflexivity | vm_compute; reflexivity |].
  unfold toy_loop. rewrite Hloop. split; [reflexivity|].
  etransitivity; [exact Hquits | vm_compute; reflexivity].
Defined.




(** C3 fails on the code: with a wrong password the detection after the
    submission answers logged-out, and [login] returns [None], not
    [False]. *)
Lemma login_failure_is_not_false :
  toy_is_logged (snd (toy_login "alice" "wrong" s_fresh)) =
    (Ok (Some false), snd (toy_login "alice" "wrong" s_fresh)) ∧
  fst (toy_login "alice" "wrong" s_fresh) = Ok None ∧
  fst (toy_login "alice" "wrong" s_fresh) ≠ Ok (Some false).
Proof. split; [|split]; [vm_compute; reflexivity | vm_compute; reflexivity |].
  vm_compute. discriminate.
Qed.

Lemma login_failure_returns_none_witness :
  let s5 :=
    snd ((enter_credentials at0 "alice" "wrong" ;;
          delay_input at0 ;;
          click_login_button ;;
          logger INFO "Performed basic login action" ;;
          delay_loading at0) s_ready) in
  toy_is_logged s5 = (Ok (Some false), s5) ∧
  login_submit toy_fragment toy_dumps at0 "alice" "wrong" s_ready = (Ok None, s5).
Proof.
  intros s5. split; [vm_compute; reflexivity|].
  destruct (login_failure_returns_none toy_fragment toy_json toy_dumps toy_loads
              at0 "alice" "wrong") as [_ Hnone].
  apply (Hnone s_ready s5 (Some false));
    [vm_compute; reflexivity | vm_compute; reflexivity | by right].
Defined.

(** Two calls of [login], the first from the fresh state: one submission
    attempt in all. *)
Lemma login_short_circuits_when_logged_in_witness :
  toy_login "alice" "secret" s_fresh = (Ok (Some true), s_logged_in) ∧
  toy_is_logged s_logged_in = (Ok (Some true), s_logged_in) ∧
  toy_login "alice" "secret" s_logged_in =
    (Ok (Some true), emit (Log INFO "Already logged in") s_logged_in) ∧
  submit_attempts (trace (emit (Log INFO "Already logged in") s_logged_in)) = 1.
Proof.
  split; [vm_compute; reflexivity|]. split; [vm_compute; reflexivity|].
  destruct (login_short_circuits_when_logged_in toy_fragment toy_json toy_dumps
              toy_loads at0 "alice" "secret") as [_ Htwice].
  destruct (Htwice s_fresh s_logged_in) as (Hsecond & _ & Hone);
    [vm_compute; reflexivity | vm_compute; reflexivity |].
  split; [exact Hsecond|].
  apply (Hone s_ready (Some false));
    [vm_compute; reflexivity | vm_compute; reflexivity | discriminate].
Defined.

(** The artifacts of the logged-in browser, saved and loaded again by a
    newly started process. *)
Lemma storage_round_trip_witness :
  let data := mkStorage [session_cookie] [("token", PyStr "abc")] in
  drv_get_cookies (browser s_logged_in) = (Ok (cookies data), browser s_logged_in) ∧
  drv_execute_script read_local_storage_script [] (browser s_logged_in) =
    (Ok (PyDict (local_storage data)), browser s_logged_in) ∧
  env_write (storage_path at0) (toy_dumps data) (browser s_logged_in) = Written ∧
  toy_loads (toy_dumps data) = Ok data ∧
  ∃ s1, toy_update_storage s_logged_in = (Ok tt, s1) ∧
        fs s1 !! storage_path at0 = Some (toy_dumps data) ∧
        ∃ evs, trace (snd (toy_load_storage (fresh browser0 (fs s1)))) = evs ∧
               cookies_added evs = cookies data ∧
               scripts_run evs = map (set_item_of toy_json) (local_storage data).
Proof.
  intros data. split; [vm_compute; reflexivity|]. split; [vm_compute; reflexivity|].
  split; [reflexivity|].
  destruct (storage_round_trip toy_json at0 s_logged_in
              [session_cookie] [("token", PyStr "abc")]
              (browser s_logged_in) (browser s_logged_in))
    as (Hrt & s1 & Hsave & Hfile & Hload); try (vm_compute; reflexivity).
  split; [exact Hrt|].
  exists s1. split; [exact Hsave|]. split; [exact Hfile|].
  destruct (Hload (fresh browser0 (fs s1)) Hfile) as [Hreplay Hobs].
  destruct (Hobs (fst (toy_load_storage (fresh browser0 (fs s1))))
                 (snd (toy_load_storage (fresh browser0 (fs s1)))))
    as (evs & Htrace & Hall).
  { unfold toy_load_storage. by destruct (load_storage _ _ _ _). }
  exists evs. split; [exact Htrace|].
  apply Hall. revert Htrace. unfold toy_load_storage.
  rewrite Hreplay. vm_compute. intros <-. reflexivity.
Defined.

(** Empty artifacts round-trip as well. *)
Example empty_storage_round_trip :
  toy_loads (toy_dumps (mkStorage [] [])) = Ok (mkStorage [] []).
Proof. vm_compute. reflexivity. Qed.

End OnThePortal.

Section OnThePlainPortal.
Import Toy Scenario PlainPortal.


End OnThePlainPortal.

(** * The further properties on the simulated portal *)

Section FurtherOnThePortal.
Import Toy Scenario PortScenario.

(** Once initialised, [init] does nothing. *)
Lemma init_is_idempotent_witness :
  initialized s_ready = true ∧ toy_init s_ready = (Ok tt, s_ready).
Proof.
  split; [vm_compute; reflexivity|].
  destruct (init_is_idempotent toy_json toy_loads at0 s_ready) as [_ Hnoop].
  apply Hnoop. vm_compute. reflexivity.
Defined.

(** Saving the artifacts of the logged-in browser. *)
Lemma update_storage_overwrites_in_place_witness :
  fst (toy_update_storage s_logged_in) = Ok tt ∧
  initialized (snd (toy_update_storage s_logged_in)) = initialized s_logged_in ∧
  ∃ cs ls,
    fs (snd (toy_update_storage s_logged_in)) =
    <[storage_path at0 := toy_dumps (mkStorage cs ls)]> (fs s_logged_in).
Proof.
  split; [vm_compute; reflexivity|].
  destruct (update_storage_overwrites_in_place toy_dumps at0 s_logged_in)
    as (Hflag & _ & _ & Hcases).
  split; [exact Hflag|].
  change (fst (update_storage toy_dumps at0 s_logged_in))
    with (@Ok unit tt) in Hcases.
  destruct Hcases as (cs & ls & _ & _ & _ & _ & _ & Hfs). by exists cs, ls.
Defined.

(** A login with a wrong password never logs the success and writes
    nothing. *)
Lemma login_writes_only_after_success_witness :
  ¬ In (Log INFO "Login Success") (trace (snd (toy_login "alice" "wrong" s_fresh))) ∧
  fs (snd (toy_login "alice" "wrong" s_fresh)) = fs s_fresh.
Proof.
  assert (¬ In (Log INFO "Login Success")
              (trace (snd (toy_login "alice" "wrong" s_fresh)))) as Hno.
  { vm_compute. intros Hin. repeat (destruct Hin as [Hin|Hin]; [discriminate|]). done. }
  split; [exact Hno|].
  destruct (login_writes_only_after_success toy_fragment toy_json toy_dumps toy_loads at0
              "alice" "wrong" s_fresh) as (evs & Htrace & Hfs).
  apply Hfs. intros Hin. apply Hno. unfold toy_login. rewrite Htrace.
  apply in_or_app. by right.
Defined.

(** Three cycles in keepalive mode: the browser stays open. *)
Lemma keepalive_mode_never_quits_witness :
  (0 < 200)%Q ∧
  fst (run_main 200 "alice" "secret" 3 browser0 ∅) = Running ∧
  quits (trace (snd (run_main 200 "alice" "secret" 3 browser0 ∅))) = 0.
Proof.
  split; [reflexivity|]. split; [vm_compute; reflexivity|].
  exact (keepalive_mode_never_quits toy_fragment toy_json toy_dumps toy_loads at0
           "alice" "secret" 200 3 s_fresh eq_refl).
Defined.

(** A startup whose navigation times out, in one-shot mode. *)
Lemma failed_startup_leaves_browser_open_witness :
  fst (toy_init s_glitch) = Raised TimeoutException ∧
  fst (main toy_fragment toy_json toy_dumps toy_loads at0 "alice" "secret" 0 3 s_glitch)
    = Terminated TimeoutException ∧
  quits (trace (snd (main toy_fragment toy_json toy_dumps toy_loads at0
                       "alice" "secret" 0 3 s_glitch))) = 0.
Proof.
  assert (fst (toy_init s_glitch) = Raised TimeoutException) as Hinit
    by (vm_compute; reflexivity).
  split; [exact Hinit|].
  exact (failed_startup_leaves_browser_open toy_fragment toy_json toy_dumps toy_loads
           at0 "alice" "secret" 0 3 s_glitch TimeoutException Hinit).
Defined.

(** A keepalive cycle on the logged-in browser. *)
Lemma logged_in_cycle_does_not_log_in_witness :
  toy_is_logged s_logged_in = (Ok (Some true), s_logged_in) ∧
  fst (toy_cycle 200 "alice" "secret" s_logged_in) = Ok tt ∧
  submit_attempts (trace (snd (toy_cycle 200 "alice" "secret" s_logged_in))) = 1 ∧
  fs (snd (toy_cycle 200 "alice" "secret" s_logged_in)) = fs s_logged_in.
Proof.
  assert (toy_is_logged s_logged_in = (Ok (Some true), s_logged_in)) as Hl
    by (vm_compute; reflexivity).
  split; [exact Hl|]. split; [vm_compute; reflexivity|].
  destruct (logged_in_cycle_does_not_log_in toy_fragment toy_json toy_dumps toy_loads
              at0 "alice" "secret" 200 s_logged_in Hl) as (Hsub & _ & Hfs).
  split; [|exact Hfs].
  etransitivity; [exact Hsub | vm_compute; reflexivity].
Defined.


(** The submission sequence on the login form. *)
Lemma login_button_only_after_typing_witness :
  ∃ evs,
    trace (snd (login_submit toy_fragment toy_dumps at0 "alice" "secret" s_ready)) =
      trace s_ready ++ evs ∧
    existsb is_login_button_lookup evs = true ∧
    ∃ el_u el_p, keys_sent evs = [(el_u, "alice"); (el_p, "secret")].
Proof.
  destruct (login_button_only_after_typing toy_fragment toy_dumps at0
              "alice" "secret" s_ready) as (evs & Htrace & Htyped).
  exists evs. split; [exact Htrace|].
  assert (existsb is_login_button_lookup evs = true) as Hlookup.
  { revert Htrace. vm_compute. intros [= <-]. reflexivity. }
  split; [exact Hlookup | exact (Htyped Hlookup)].
Defined.

(** A newly started process restores what the logged-in one saved. *)
Lemma restore_is_delete_then_add_witness :
  let t := fresh browser0 (fs s_logged_in) in
  let data := mkStorage [session_cookie] [("token", PyStr "abc")] in
  fs t !! storage_path at0 = Some (toy_dumps data) ∧
  toy_loads (toy_dumps data) = Ok data ∧
  fst (toy_load_storage t) = Ok tt ∧
  trace (snd (toy_load_storage t)) =
    [Cmd (DeleteCookie (PyStr "sid")); Cmd (AddCookie session_cookie);
     Cmd (ExecuteScript (set_item_of toy_json ("token", PyStr "abc")) []);
     Log INFO "Loaded storage data"].
Proof.
  intros t data. split; [vm_compute; reflexivity|]. split; [vm_compute; reflexivity|].
  destruct (restore_is_delete_then_add toy_json toy_loads at0 t
              (snd (toy_load_storage t)) (fst (toy_load_storage t))
              (toy_dumps data) data)
    as (evs & Htrace & Hall); try (vm_compute; reflexivity).
  destruct Hall as [Hok Hevs].
  { revert Htrace. vm_compute. intros [= <-]. reflexivity. }
  split; [exact Hok|]. rewrite Htrace, Hevs. vm_compute. reflexivity.
Defined.

(** Stored artifacts whose only cookie has no name. *)
Lemma cookie_without_name_aborts_restore_witness :
  let data := mkStorage [[("value", PyStr "x")]] [("token", PyStr "abc")] in
  let t := fresh browser0 {[ storage_path at0 := toy_dumps data ]} in
  toy_loads (toy_dumps data) = Ok data ∧
  dict_get "name" [("value", PyStr "x")] = None ∧
  toy_load_storage t = (Raised (KeyError "name"), t) ∧
  fst (toy_init t) = Raised (KeyError "name").
Proof.
  intros data t. split; [vm_compute; reflexivity|]. split; [reflexivity|].
  destruct (cookie_without_name_aborts_restore toy_json toy_loads at0 t
              (toy_dumps data) data [("value", PyStr "x")])
    as [_ Hfirst]; try (vm_compute; reflexivity); [by left|].
  split; [exact (Hfirst eq_refl) | vm_compute; reflexivity].
Defined.

(** The first [init] on a fresh data directory. *)
Lemma init_navigates_before_restoring_witness :
  initialized s_fresh = false ∧
  toy_init s_fresh = (Ok tt, s_ready) ∧
  trace s_ready = [Cmd (Get portal); Cmd WaitReady; Sleep 5].
Proof.
  split; [reflexivity|].
  assert (toy_init s_fresh = (Ok tt, s_ready)) as Hinit by (vm_compute; reflexivity).
  split; [exact Hinit|].
  destruct (init_navigates_before_restoring toy_json toy_loads at0 s_fresh s_ready
              eq_refl Hinit) as (evs & Htrace & _).
  vm_compute. reflexivity.
Defined.

(** The local service refuses two attempts, then listens. *)
Lemma wait_for_port_returns_after_connecting_witness :
  refused_attempts port_connect "localhost" 54631 5 2 (2, browser0) (0, browser0) ∧
  port_connect "localhost" 54631 (0, browser0) = (Connected, (0, browser0)) ∧
  wait_for_port port_connect 5 54631 "localhost" 5 s_late =
    (Some (Ok tt),
     mkState false (0, browser0) ∅
       (retry_events 54631 5 2 ++ [Log INFO (port_detected_message 54631)])) ∧
  port_detected_message 54631 = "Detected aTrust is listening on port 54631".
Proof.
  assert (refused_attempts port_connect "localhost" 54631 5 2 (2, browser0) (0, browser0))
    as Hrefused.
  { exists ConnectionRefused, (1, browser0), (1, browser0).
    split; [done|]. split; [by right|]. split; [done|].
    exists ConnectionRefused, (0, browser0), (0, browser0).
    split; [done|]. split; [by right|]. done. }
  split; [exact Hrefused|]. split; [reflexivity|]. split; [|vm_compute; reflexivity].
  apply (wait_for_port_returns_after_connecting port_connect 54631 "localhost" 5 5 s_late).
  exists 2, (0, browser0), (0, browser0).
  split; [lia|]. split; [exact Hrefused|]. split; [reflexivity|].
  split; [by right | reflexivity].
Defined.


End FurtherOnThePortal.
